(** * spam_news: the demo analysis notebook, embedded and verified

    The executable logic of the repository lives in
    [notebooks/demo_analysis.ipynb]: the regular-expression based
    [detect_demographics] and the loop that analyses every sample
    article.  This development embeds both, together with the small
    part of Python's [str] and [re] modules they rely on, and settles
    the properties the specification states about them.

    Text is modelled as [string], one [ascii] per character; the
    embedding therefore covers ASCII text, on which [str.lower], [\b]
    and [str.split] have the definitions given below. *)

From Stdlib Require Import String Ascii List Bool Arith Lia QArith.
Import ListNotations.

Local Open Scope string_scope.
Local Open Scope list_scope.

(** ** Python strings *)

Module PyStr.

(** [c.lower()] for one character: [A]..[Z] move to [a]..[z]. *)
Definition lower_char (c : ascii) : ascii :=
  let n := nat_of_ascii c in
  if (65 <=? n)%nat && (n <=? 90)%nat then ascii_of_nat (n + 32) else c.

(** [s.lower()] *)
Fixpoint lower (s : string) : string :=
  match s with
  | EmptyString => EmptyString
  | String c s' => String (lower_char c) (lower s')
  end.

(** [c.isspace()]: tab, line feed, vertical tab, form feed, carriage
    return, the four separators 0x1c..0x1f and the space. *)
Definition isspace (c : ascii) : bool :=
  let n := nat_of_ascii c in
  ((9 <=? n)%nat && (n <=? 13)%nat)
  || ((28 <=? n)%nat && (n <=? 31)%nat)
  || (n =? 32)%nat.

(** [s.split()]: the maximal runs of non-space characters, in order.
    [cur] is the run being read. *)
Fixpoint split_acc (s : string) (cur : string) : list string :=
  match s with
  | EmptyString => if (String.length cur =? 0)%nat then [] else [cur]
  | String c s' =>
      if isspace c
      then (if (String.length cur =? 0)%nat then split_acc s' EmptyString
            else cur :: split_acc s' EmptyString)
      else split_acc s' (cur ++ String c EmptyString)
  end.

Definition split (s : string) : list string := split_acc s EmptyString.

(** [x in l] for a list of strings. *)
Definition mem (x : string) (l : list string) : bool :=
  existsb (String.eqb x) l.

End PyStr.

(** ** The fragment of [re] the notebook uses

    The five patterns are of the shape [\b(w1|w2|...)\b]: literal
    characters, alternation, concatenation and the word-boundary
    assertion. *)

Module Re.

Inductive regex : Type :=
| Eps : regex
| Chr : ascii -> regex
| WordB : regex
| Cat : regex -> regex -> regex
| Or : regex -> regex -> regex.

(** [\w] on ASCII: letters, digits and the underscore. *)
Definition is_word (c : ascii) : bool :=
  let n := nat_of_ascii c in
  ((48 <=? n)%nat && (n <=? 57)%nat)
  || ((65 <=? n)%nat && (n <=? 90)%nat)
  || ((97 <=? n)%nat && (n <=? 122)%nat)
  || (n =? 95)%nat.

Definition word_opt (c : option ascii) : bool :=
  match c with
  | Some a => is_word a
  | None => false
  end.

Definition head_char (s : string) : option ascii :=
  match s with
  | EmptyString => None
  | String c _ => Some c
  end.

(** [\b] holds between [prev] and the rest [s] when exactly one side
    is a word character (the outside of the string counts as non-word). *)
Definition at_boundary (prev : option ascii) (s : string) : bool :=
  xorb (word_opt prev) (word_opt (head_char s)).

(** The character before the rest, once [u] has been read. *)
Fixpoint last_char (u : string) (prev : option ascii) : option ascii :=
  match u with
  | EmptyString => prev
  | String c u' => last_char u' (Some c)
  end.

(** All the ways [r] can match a prefix of [s], the character before
    [s] being [prev]: each result is the character before the rest,
    and the rest.  Backtracking is the list of alternatives. *)
Fixpoint match_here (r : regex) (prev : option ascii) (s : string)
  : list (option ascii * string) :=
  match r with
  | Eps => [(prev, s)]
  | Chr c =>
      match s with
      | String d s' => if Ascii.eqb c d then [(Some d, s')] else []
      | EmptyString => []
      end
  | WordB => if at_boundary prev s then [(prev, s)] else []
  | Cat r1 r2 =>
      flat_map (fun st => match_here r2 (fst st) (snd st)) (match_here r1 prev s)
  | Or r1 r2 => match_here r1 prev s ++ match_here r2 prev s
  end.

Definition matches_at (r : regex) (prev : option ascii) (s : string) : bool :=
  match match_here r prev s with
  | [] => false
  | _ :: _ => true
  end.

(** Scan the start positions from left to right, the end of the
    string included. *)
Fixpoint search_from (r : regex) (prev : option ascii) (s : string) : bool :=
  matches_at r prev s
  || match s with
     | EmptyString => false
     | String c s' => search_from r (Some c) s'
     end.

(** [bool(re.search(r, s))] *)
Definition search (r : regex) (s : string) : bool := search_from r None s.

(** The literal [w]. *)
Fixpoint lit (w : string) : regex :=
  match w with
  | EmptyString => Eps
  | String c w' => Cat (Chr c) (lit w')
  end.

(** [(w1|w2|...|wn)], for a non-empty list of literals. *)
Fixpoint alts (w : string) (ws : list string) : regex :=
  match ws with
  | [] => lit w
  | w' :: ws' => Or (lit w) (alts w' ws')
  end.

(** [\b(w1|...|wn)\b] *)
Definition bounded (w : string) (ws : list string) : regex :=
  Cat WordB (Cat (alts w ws) WordB).

End Re.

(** ** Demographic detection (notebook cell "Demographic Detection") *)

(** [demographic_patterns]: a dict, iterated in insertion order. *)
Definition demographic_patterns : list (string * Re.regex) :=
  [ ("women", Re.bounded "women" ["woman"; "female"; "females"]);
    ("men",   Re.bounded "men" ["man"; "male"; "males"]);
    ("white", Re.bounded "white" ["caucasian"]);
    ("black", Re.bounded "black" ["african american"]);
    ("poc",   Re.bounded "people of color" ["hispanic"; "latino"; "latina"; "asian"]) ].

(** The [for demo, pattern in demographic_patterns.items()] loop:
    [found] is threaded through, [found.append(demo)] on a hit. *)
Definition scan_patterns (text_lower : string)
  (patterns : list (string * Re.regex)) (found : list string) : list string :=
  fold_left
    (fun found dp => if Re.search (snd dp) text_lower then found ++ [fst dp] else found)
    patterns found.

Definition detect_demographics (text : string) : list string :=
  let text_lower := PyStr.lower text in
  let found := [] in
  let found := scan_patterns text_lower demographic_patterns found in
  (* Identify intersections *)
  let found :=
    if PyStr.mem "women" found && (PyStr.mem "black" found || PyStr.mem "poc" found)
    then found ++ ["women_of_color"] else found in
  let found :=
    if PyStr.mem "men" found && PyStr.mem "white" found
    then found ++ ["white_men"] else found in
  found.

(** [demographic_patterns[demo]] *)
Definition pattern_of (demo : string) : option Re.regex :=
  option_map snd (find (fun dp => String.eqb demo (fst dp)) demographic_patterns).

(** Does the pattern registered under [demo] match the lowered text? *)
Definition hit (demo text : string) : bool :=
  match pattern_of demo with
  | Some pattern => Re.search pattern (PyStr.lower text)
  | None => false
  end.

(** The two axes of the patterns: [women] and [men] are the gender
    terms, [white], [black] and [poc] the race-ethnicity terms. *)
Definition gender_term_matched (text : string) : bool :=
  hit "women" text || hit "men" text.

Definition race_term_matched (text : string) : bool :=
  hit "white" text || hit "black" text || hit "poc" text.

(** The composite targets of the closed lattice, by name. *)
Definition composite_targets : list string :=
  ["white_men"; "white_women"; "men_of_color"; "women_of_color"].

(** Every name [detect_demographics] can put in its result. *)
Definition detectable_names : list string :=
  ["women"; "men"; "white"; "black"; "poc"; "women_of_color"; "white_men"].

(** ** The analysis loop (notebook cell "Analyze All Sample Articles") *)

(** Exceptions the cell can raise. *)
Inductive py_exn : Type :=
| OracleError : string -> py_exn      (* raised inside [classifier(...)] *)
| IndexError : py_exn.                (* [label.split()[0]] on a blank label *)

Inductive outcome (A : Type) : Type :=
| Ok : A -> outcome A
| Raise : py_exn -> outcome A.
Arguments Ok {A} _.
Arguments Raise {A} _.

Definition bind {A B : Type} (m : outcome A) (k : A -> outcome B) : outcome B :=
  match m with
  | Ok a => k a
  | Raise e => Raise e
  end.

Notation "x <- m ;; k" := (bind m (fun x => k))
  (at level 61, m at next level, right associativity).

(** An article of [data/sample_articles.json]. *)
Record article : Type := mkArticle {
  article_id : string;
  source : string;
  date : string;
  title : string;
  content : string;
  human_coding : option (list (string * list (string * Q)))
}.

(** What the zero-shot pipeline returns: labels and their scores, in
    parallel lists.  Scores are finite floats; comparing them with the
    literal [0.5] is exact, so they are modelled as rationals. *)
Record frame_result : Type := mkFrameResult {
  labels : list string;
  scores : list Q
}.

(** The classification oracle: text and candidate labels in, a
    [frame_result] out, or an exception. *)
Definition classifier_t : Type := string -> list string -> outcome frame_result.

Definition frame_labels : list string :=
  [ "underrepresentation in leadership";
    "overrepresentation in leadership";
    "obstacles to leadership";
    "successes in leadership" ].

(** [score > 0.5] *)
Definition above_half (score : Q) : bool := negb (Qle_bool score (1 # 2)).

(** [label.split()[0]] *)
Definition first_word (label : string) : outcome string :=
  match PyStr.split label with
  | w :: _ => Ok w
  | [] => Raise IndexError
  end.

(** The comprehension
    [[(label.split()[0], score) for label, score in zip(...) if score > 0.5]]:
    the element expression is evaluated only for the pairs that pass
    the filter. *)
Fixpoint high_confidence (pairs : list (string * Q)) : outcome (list (string * Q)) :=
  match pairs with
  | [] => Ok []
  | (label, score) :: rest =>
      if above_half score
      then w <- first_word label ;;
           tl <- high_confidence rest ;;
           Ok ((w, score) :: tl)
      else high_confidence rest
  end.

Definition detected_frames (fr : frame_result) : outcome (list (string * Q)) :=
  high_confidence (combine (labels fr) (scores fr)).

(** One entry of [results]. *)
Record analysis : Type := mkAnalysis {
  an_article_id : string;
  an_title : string;
  an_detected_frames : list (string * Q);
  an_demographics : list string
}.

(** The body of the [for article in articles] loop. *)
Definition analyze_article (classifier : classifier_t) (a : article) : outcome analysis :=
  frame_result <- classifier (content a) frame_labels ;;
  detected <- detected_frames frame_result ;;
  let demographics := detect_demographics (content a) in
  Ok (mkAnalysis (article_id a) (title a) detected demographics).

(** The loop itself: [results] is the list being appended to.  An
    exception leaves the loop at once; [results] keeps what was
    appended before. *)
Fixpoint analyze_loop (classifier : classifier_t) (articles : list article)
  (results : list analysis) : list analysis * option py_exn :=
  match articles with
  | [] => (results, None)
  | a :: rest =>
      match analyze_article classifier a with
      | Ok r => analyze_loop classifier rest (results ++ [r])
      | Raise e => (results, Some e)
      end
  end.

(** The whole cell: [results = []] rebinds the global, whatever it
    held, and the loop runs. *)
Definition analysis_cell (classifier : classifier_t) (articles : list article)
  (results_before : list analysis) : list analysis * option py_exn :=
  let results := [] in
  analyze_loop classifier articles results.


(** The result as a function of the five search outcomes: the names
    that matched, in dictionary order, then the intersections. *)
Definition keep (b : bool) (name : string) : list string :=
  if b then [name] else [].

Definition resolve (women men white black poc : bool) : list string :=
  keep women "women" ++ keep men "men" ++ keep white "white"
  ++ keep black "black" ++ keep poc "poc"
  ++ keep (women && (black || poc)) "women_of_color"
  ++ keep (men && white) "white_men".

(** ** Sample inputs *)

Definition sample_article (id text : string) : article :=
  mkArticle id "CNN" "2021-03-08" id text None.

(** An oracle that is down for one text and answers for the others. *)
Definition flaky_oracle : classifier_t :=
  fun text candidate_labels =>
    if String.eqb text "Women face barriers"
    then Raise (OracleError "timeout")
    else Ok (mkFrameResult candidate_labels [9 # 10; 1 # 2; 51 # 100; 3 # 10]).

(** An oracle that always answers, with a score of exactly 0.5 second. *)
Definition steady_oracle : classifier_t :=
  fun text candidate_labels =>
    Ok (mkFrameResult candidate_labels [9 # 10; 1 # 2; 51 # 100; 3 # 10]).

(** ** Configuration tables

    [configs/frame_definitions.yaml], key [demographics.intersectional]:
    the explicit intersectional phrases and the composite target each
    one names.  The notebook does not read the table. *)
Definition intersectional : list (string * list string) :=
  [ ("women_of_color",
      ["women of color"; "black women"; "latina women"; "hispanic women";
       "asian women"; "indigenous women"]);
    ("white_women", ["white women"; "caucasian women"]);
    ("white_men", ["white men"; "caucasian men"]);
    ("men_of_color",
      ["men of color"; "black men"; "latino men"; "hispanic men";
       "asian men"; "indigenous men"]) ].

(** The phrase occurs in the text as whole words, case-insensitively. *)
Definition mentions_phrase (text phrase : string) : bool :=
  Re.search (Re.bounded phrase []) (PyStr.lower text).

(** The composite targets whose phrases occur in the text. *)
Definition phrase_targets (text : string) : list string :=
  map fst
    (filter (fun entry => existsb (mentions_phrase text) (snd entry)) intersectional).

(** [configs/model_config.yaml]: [zero_shot.confidence_threshold] (the
    ensemble's has the same value).  The notebook writes the literal. *)
Definition confidence_threshold : Q := 1 # 2.


(** ** The comparison with human coding (notebook cell "Compare with
    Human Coding") *)

(** Exceptions of the cells below, and the result of running one. *)
Inductive cell_exn : Type :=
| KeyError : string -> cell_exn
| TypeError : cell_exn.

Inductive attempt (A : Type) : Type :=
| Done : A -> attempt A
| Fails : cell_exn -> attempt A.
Arguments Done {A} _.
Arguments Fails {A} _.

(** A dict with string keys, as the list of its items in order.
    [d.keys()], [k in d] and [d[k]] (looked up only when present). *)
Definition dict_keys {V : Type} (d : list (string * V)) : list string :=
  map fst d.

Definition dict_has {V : Type} (d : list (string * V)) (k : string) : bool :=
  PyStr.mem k (dict_keys d).

Definition dict_get {V : Type} (d : list (string * V)) (k : string) : option V :=
  option_map snd (find (fun kv => String.eqb k (fst kv)) d).

(** The frames the cell goes through, in its order. *)
Definition compared_frames : list string :=
  ["underrepresentation"; "overrepresentation"; "obstacles"; "successes"].

(** One entry of [comparison]. *)
Record comparison_row : Type := mkComparison {
  cr_article_id : string;
  cr_frame : string;
  cr_human : bool;
  cr_ml : bool;
  cr_match : bool
}.

(** [frame in human_frames and len(article['human_coding'][frame]) > 0]:
    the lookup is made only when the key is there. *)
Definition human_detected (coding : list (string * list (string * Q)))
  (frame : string) : bool :=
  if dict_has coding frame
  then match dict_get coding frame with
       | Some groups => (0 <? List.length groups)%nat
       | None => false
       end
  else false.

(** [frame in ml_frames], with [ml_frames = [f[0] for f in ...]]. *)
Definition ml_detected (r : analysis) (frame : string) : bool :=
  PyStr.mem frame (map fst (an_detected_frames r)).

(** The body of the outer loop: [article['human_coding']] raises when
    the article has no such key. *)
Definition compare_article (a : article) (r : analysis)
  : attempt (list comparison_row) :=
  match human_coding a with
  | None => Fails (KeyError "human_coding")
  | Some coding =>
      Done (map (fun frame =>
                   let human := human_detected coding frame in
                   let ml := ml_detected r frame in
                   mkComparison (article_id a) frame human ml (Bool.eqb human ml))
                compared_frames)
  end.

(** [for article, result in zip(articles, results)]: [comparison] is
    appended to, and keeps what it has when an exception leaves the loop. *)
Fixpoint compare_loop (pairs : list (article * analysis))
  (comparison : list comparison_row) : list comparison_row * option cell_exn :=
  match pairs with
  | [] => (comparison, None)
  | (a, r) :: rest =>
      match compare_article a r with
      | Done rows => compare_loop rest (comparison ++ rows)
      | Fails e => (comparison, Some e)
      end
  end.

Definition comparison_cell (articles : list article) (results : list analysis)
  : list comparison_row * option cell_exn :=
  let comparison := [] in
  compare_loop (combine articles results) comparison.

(** ** Data exploration (notebook "01_data_exploration") *)

(** One row of the frame built by [extract_frame_counts]. *)
Record count_row : Type := mkCountRow {
  fc_article_id : string;
  fc_frame : string;
  fc_demographic : string;
  fc_count : Q
}.

Definition frame_types : list string :=
  ["underrepresentation"; "overrepresentation"; "obstacles"; "successes"].

(** The two inner loops for one row: the frames in the order of
    [frame_types], and under each frame that is a key of the coding,
    its items.  The list [demographic_groups] of the function is never
    read. *)
Definition rows_of_coding (id : string) (coding : list (string * list (string * Q)))
  : list count_row :=
  flat_map
    (fun frame =>
       if dict_has coding frame
       then match dict_get coding frame with
            | Some groups =>
                map (fun gc => mkCountRow id frame (fst gc) (snd gc)) groups
            | None => []
            end
       else [])
    frame_types.

(** [for idx, row in df.iterrows()], for a frame that has the column
    [human_coding]: a row built from an article without the key holds
    NaN there, and [frame in coding] raises a TypeError. *)
Fixpoint extract_rows (df : list article) (results : list count_row)
  : attempt (list count_row) :=
  match df with
  | [] => Done results
  | row :: rest =>
      match human_coding row with
      | None => Fails TypeError
      | Some coding => extract_rows rest (results ++ rows_of_coding (article_id row) coding)
      end
  end.

Definition lacks_coding (a : article) : bool :=
  match human_coding a with
  | None => true
  | Some _ => false
  end.

(** [extract_frame_counts(df)], with [df = pd.DataFrame(articles)]: the
    frame has the column [human_coding] when at least one article has
    the key; without the column the first [row['human_coding']] raises
    a KeyError. *)
Definition extract_frame_counts (articles : list article) : attempt (list count_row) :=
  match articles with
  | [] => Done []
  | _ :: _ =>
      if forallb lacks_coding articles
      then Fails (KeyError "human_coding")
      else extract_rows articles []
  end.

(** [df['content'].str.len()] and [df['content'].str.split().str.len()]
    for one article. *)
Definition content_length (a : article) : nat := String.length (content a).

Definition word_count (a : article) : nat := List.length (PyStr.split (content a)).

(** The text without its whitespace characters. *)
Fixpoint strip_spaces (s : string) : string :=
  match s with
  | EmptyString => EmptyString
  | String c s' =>
      if PyStr.isspace c then strip_spaces s' else String c (strip_spaces s')
  end.

Fixpoint has_space (s : string) : bool :=
  match s with
  | EmptyString => false
  | String c s' => PyStr.isspace c || has_space s'
  end.

(** [frame_keywords] of the keyword search cell. *)
Definition frame_keywords : list (string * list string) :=
  [ ("underrepresentation",
      ["underrepresented"; "lower rates"; "less than"; "only"; "just"]);
    ("overrepresentation", ["overrepresented"; "dominate"; "majority"; "most"]);
    ("obstacles", ["barrier"; "ceiling"; "discrimination"; "harder"; "challenges"]);
    ("successes", ["first"; "breakthrough"; "achievement"; "milestone"; "appointed"]) ].

(** ['|'.join(keywords)], compiled. *)
Definition keyword_pattern (keywords : list string) : Re.regex :=
  match keywords with
  | [] => Re.Eps
  | k :: ks => Re.alts k ks
  end.

(** [len(re.findall(r, s))] for a pattern whose matches are never
    empty, as those of the keyword lists are: at a position where [r]
    matches, the first alternative that matches is taken, and the scan
    goes on after it; [skip] counts the characters of the current match
    still to pass. *)
Fixpoint count_from (r : Re.regex) (prev : option ascii) (s : string)
  (skip : nat) : nat :=
  match s with
  | EmptyString => 0
  | String c s' =>
      match skip with
      | S k => count_from r (Some c) s' k
      | O =>
          match Re.match_here r prev s with
          | [] => count_from r (Some c) s' 0
          | (_, rest) :: _ =>
              S (count_from r (Some c) s'
                   (String.length s - String.length rest - 1))
          end
      end
  end.

(** [text.lower()] counted against the keywords of [frame]; a frame
    that is not in [frame_keywords] has no column. *)
Definition keyword_count (frame text : string) : option nat :=
  match dict_get frame_keywords frame with
  | Some keywords =>
      Some (count_from (keyword_pattern keywords) None (PyStr.lower text) 0)
  | None => None
  end.

(** ** The analysis loop with the oracle's state

    The classifier is an object: a call may change it (a cache, a
    connection, the call counter of a mock).  Here a call takes the
    oracle's state and returns the new one with its answer. *)
Definition oracle_t (S : Type) : Type :=
  S -> string -> list string -> outcome frame_result * S.

(** The body of the [for article in articles] loop, the one call to
    the classifier included. *)
Definition analyze_article_st {S : Type} (oracle : oracle_t S) (s : S) (a : article)
  : outcome analysis * S :=
  let answer := oracle s (content a) frame_labels in
  (frame_result <- fst answer ;;
   detected <- detected_frames frame_result ;;
   let demographics := detect_demographics (content a) in
   Ok (mkAnalysis (article_id a) (title a) detected demographics),
   snd answer).

(** The loop: [results] and the oracle's state are threaded through;
    an exception leaves the loop with both as they are. *)
Fixpoint analyze_loop_st {S : Type} (oracle : oracle_t S) (articles : list article)
  (results : list analysis) (s : S) : (list analysis * option py_exn) * S :=
  match articles with
  | [] => ((results, None), s)
  | a :: rest =>
      match analyze_article_st oracle s a with
      | (Ok r, s') => analyze_loop_st oracle rest (results ++ [r]) s'
      | (Raise e, s') => ((results, Some e), s')
      end
  end.

(** What a run of the cell starts from and leaves behind: the global
    [results] and the oracle. *)
Record notebook (S : Type) : Type := mkNotebook {
  nb_results : list analysis;
  nb_oracle : S
}.
Arguments mkNotebook {S} _ _.
Arguments nb_results {S} _.
Arguments nb_oracle {S} _.

(** The whole cell: [results = []], then the loop. *)
Definition analysis_cell_st {S : Type} (oracle : oracle_t S)
  (articles : list article) (nb : notebook S) : option py_exn * notebook S :=
  let results := [] in
  let run := analyze_loop_st oracle articles results (nb_oracle nb) in
  (snd (fst run), mkNotebook (fst (fst run)) (snd run)).

(** A deterministic strategy or a fixed mocked oracle: the answer
    depends on the text and the labels, not on the oracle's state. *)
Definition input_determined {S : Type} (oracle : oracle_t S) : Prop :=
  forall s s' text labels,
    fst (oracle s text labels) = fst (oracle s' text labels).

(** A mock that counts its calls and always gives the same scores. *)
Definition counting_oracle : oracle_t nat :=
  fun calls text candidate_labels =>
    (Ok (mkFrameResult candidate_labels [9 # 10; 1 # 2; 51 # 100; 3 # 10]),
     Datatypes.S calls).

(** ** Vocabulary of the statements *)


Definition occurs_as_word (w s : string) : Prop :=
  exists u rest,
    s = (u ++ w ++ rest)%string
    /\ Re.word_opt (Re.last_char u None) = false
    /\ Re.word_opt (Re.head_char rest) = false.

(** The keywords behind each pattern of [demographic_patterns]. *)
Definition pattern_keywords : list (string * list string) :=
  [ ("women", ["women"; "woman"; "female"; "females"]);
    ("men", ["men"; "man"; "male"; "males"]);
    ("white", ["white"; "caucasian"]);
    ("black", ["black"; "african american"]);
    ("poc", ["people of color"; "hispanic"; "latino"; "latina"; "asian"]) ].

(** The frames and groups of a coding, without the tallies. *)
Definition coding_shape (coding : list (string * list (string * Q)))
  : list (string * list string) :=
  map (fun fg => (fst fg, map fst (snd fg))) coding.

(** A keyword that starts and ends with a word character. *)
Definition word_edged (k : string) : bool :=
  Re.word_opt (Re.head_char k) && Re.word_opt (Re.last_char k None).


(** A sample article that carries a human coding. *)
Definition coded_article (id text : string)
  (coding : list (string * list (string * Q))) : article :=
  mkArticle id "NPR" "2021-03-08" id text (Some coding).


(** A text of ASCII characters only: the texts on which [str.lower],
    [\b], [str.split] and [len] are what this file defines. *)
Fixpoint is_ascii (s : string) : bool :=
  match s with
  | EmptyString => true
  | String c s' => (nat_of_ascii c <? 128)%nat && is_ascii s'
  end.

(** Two texts that differ in the case of their letters only. *)
Definition same_up_to_case (s t : string) : Prop :=
  Forall2 (fun c d => PyStr.lower_char c = PyStr.lower_char d)
          (list_ascii_of_string s) (list_ascii_of_string t).

(** * Properties of [detect_demographics] *)

Lemma detect_demographics_resolve (text : string) :
  detect_demographics text =
  resolve (hit "women" text) (hit "men" text) (hit "white" text)
          (hit "black" text) (hit "poc" text).
Proof.
  unfold detect_demographics, hit, pattern_of, scan_patterns, demographic_patterns.
  cbn [find fold_left fst snd option_map String.eqb Ascii.eqb Bool.eqb app].
  generalize (PyStr.lower text); intro t.
  destruct (Re.search (Re.bounded "women" _) t);
    destruct (Re.search (Re.bounded "men" _) t);
    destruct (Re.search (Re.bounded "white" _) t);
    destruct (Re.search (Re.bounded "black" _) t);
    destruct (Re.search (Re.bounded "people of color" _) t);
    reflexivity.
Qed.

(** Membership in a [keep] cell and in a [resolve] list. *)
Lemma in_keep (b : bool) (name x : string) :
  In x (keep b name) <-> b = true /\ x = name.
Proof.
  destruct b; simpl; split.
  - intros [H | []]; auto.
  - intros [_ H]; auto.
  - intros [].
  - intros [H _]; discriminate.
Qed.

Lemma in_resolve (w m wh bl p : bool) (x : string) :
  In x (resolve w m wh bl p) <->
    (w = true /\ x = "women") \/ (m = true /\ x = "men")
    \/ (wh = true /\ x = "white") \/ (bl = true /\ x = "black")
    \/ (p = true /\ x = "poc")
    \/ (w && (bl || p) = true /\ x = "women_of_color")
    \/ (m && wh = true /\ x = "white_men").
Proof.
  unfold resolve. rewrite !in_app_iff, !in_keep. tauto.
Qed.

Lemma in_detect_demographics (text x : string) :
  In x (detect_demographics text) <->
    (hit "women" text = true /\ x = "women")
    \/ (hit "men" text = true /\ x = "men")
    \/ (hit "white" text = true /\ x = "white")
    \/ (hit "black" text = true /\ x = "black")
    \/ (hit "poc" text = true /\ x = "poc")
    \/ (hit "women" text && (hit "black" text || hit "poc" text) = true
        /\ x = "women_of_color")
    \/ (hit "men" text && hit "white" text = true /\ x = "white_men").
Proof.
  rewrite detect_demographics_resolve. apply in_resolve.
Qed.

Lemma resolve_NoDup (w m wh bl p : bool) : NoDup (resolve w m wh bl p).
Proof.
  destruct w, m, wh, bl, p; cbn;
    repeat (constructor; [cbn; intuition discriminate | ]); constructor.
Qed.

(** * Properties of the matcher *)

Module ReFacts.
Import Re.


Lemma append_assoc (u v w : string) : ((u ++ v) ++ w = u ++ (v ++ w))%string.
Proof.
  induction u as [| c u IH]; simpl; [reflexivity | now rewrite IH].
Qed.

(** [\b(...)\b] at a position: a boundary here, and one of the ways
    to read an alternative ends on a boundary. *)
Lemma matches_at_bounded (w : string) (ws : list string)
  (prev : option ascii) (s : string) :
  matches_at (bounded w ws) prev s =
  at_boundary prev s
  && existsb (fun st => at_boundary (fst st) (snd st))
             (match_here (alts w ws) prev s).
Proof.
  unfold matches_at, bounded.
  cbn [match_here].
  destruct (at_boundary prev s); [| reflexivity].
  cbn [flat_map fst snd andb]. rewrite app_nil_r.
  induction (match_here (alts w ws) prev s) as [| st l IH]; [reflexivity |].
  cbn [flat_map existsb match_here].
  destruct (at_boundary (fst st) (snd st)); [reflexivity | exact IH].
Qed.

(** A literal matches in at most one way: it reads itself. *)
Lemma match_here_lit (w : string) (prev : option ascii) (s : string) :
  forall st, In st (match_here (lit w) prev s) ->
    s = (w ++ snd st)%string /\ fst st = last_char w prev.
Proof.
  revert prev s; induction w as [| c w IH]; intros prev s st Hin; simpl in *.
  - destruct Hin as [<- | []]; auto.
  - destruct s as [| d s]; simpl in Hin; [contradiction |].
    destruct (Ascii.eqb c d) eqn:E; simpl in Hin; [| contradiction].
    apply Ascii.eqb_eq in E; subst d.
    rewrite app_nil_r in Hin.
    destruct (IH _ _ _ Hin) as [Hs Hl]. split; [now rewrite Hs at 1 | exact Hl].
Qed.

(** A match that starts after [u] is found by the scan. *)
Lemma search_from_skip (r : regex) (u s : string) :
  forall prev, matches_at r (last_char u prev) s = true ->
               search_from r prev (u ++ s) = true.
Proof.
  induction u as [| c u IH]; intros prev H; simpl in *.
  - destruct s; simpl; rewrite H; reflexivity.
  - rewrite (IH _ H). apply orb_true_r.
Qed.

End ReFacts.

(** * The claims about demographic resolution *)

(** C1: a text with a gender term and a race-ethnicity term should get
    the corresponding composite target.  [detect_demographics] builds
    [women_of_color] and [white_men] only: a text with a women term and
    a white term, or a men term and a people-of-color term, gets the two
    single-axis names and no composite, and no text at all gets
    [white_women] or [men_of_color]. *)
Theorem C1_missing_composites :
  (gender_term_matched "White women lead the board" = true
   /\ race_term_matched "White women lead the board" = true
   /\ detect_demographics "White women lead the board" = ["women"; "white"])
  /\ (gender_term_matched "Hispanic men lead the board" = true
      /\ race_term_matched "Hispanic men lead the board" = true
      /\ detect_demographics "Hispanic men lead the board" = ["men"; "poc"])
  /\ (forall text, ~ In "white_women" (detect_demographics text)
                   /\ ~ In "men_of_color" (detect_demographics text)).
Proof.
  split; [| split].
  - repeat split; vm_compute; reflexivity.
  - repeat split; vm_compute; reflexivity.
  - intro text; split; rewrite in_detect_demographics;
      intros H; decompose [or and] H; discriminate.
Qed.

(** C2 as stated fails: a text in which no keyword matches gets the
    empty list, not the singleton [unspecified]. *)
Lemma C2_counterexample :
  gender_term_matched "The board met today" = false
  /\ race_term_matched "The board met today" = false
  /\ detect_demographics "The board met today" <> ["unspecified"].
Proof.
  repeat split; try (vm_compute; reflexivity).
  vm_compute. discriminate.
Qed.

(** C2, amended: for every text in which no gender keyword and no
    race-ethnicity keyword matches, [detect_demographics] returns the
    empty list. *)
Theorem C2_no_match_empty (text : string) :
  gender_term_matched text = false ->
  race_term_matched text = false ->
  detect_demographics text = [].
Proof.
  unfold gender_term_matched, race_term_matched. intros Hg Hr.
  apply orb_false_iff in Hg. destruct Hg as [Hw Hm].
  apply orb_false_iff in Hr. destruct Hr as [Hr Hp].
  apply orb_false_iff in Hr. destruct Hr as [Hwh Hb].
  rewrite detect_demographics_resolve, Hw, Hm, Hwh, Hb, Hp. reflexivity.
Qed.

(** C2, amended, on a text without any keyword. *)
Lemma C2_no_match_empty_witness :
  gender_term_matched "The board met today" = false
  /\ race_term_matched "The board met today" = false
  /\ detect_demographics "The board met today" = [].
Proof.
  split; [vm_compute; reflexivity |].
  split; [vm_compute; reflexivity |].
  apply (C2_no_match_empty "The board met today"); vm_compute; reflexivity.
Defined.

(** C3: a text that matches a configured intersectional phrase
    should get the composite the phrase names, ahead of any composite
    inferred from separately matched words.  [detect_demographics]
    never reads the phrases: "women of color", the phrase of the claim,
    gives [women] alone, and in the second text the phrases name
    [white_women] and [men_of_color] while the result holds the two
    composites inferred across them. *)
Theorem C3_explicit_phrase_missed :
  (phrase_targets "Women of color face barriers" = ["women_of_color"]
   /\ detect_demographics "Women of color face barriers" = ["women"])
  /\ (phrase_targets "Black men and white women" = ["white_women"; "men_of_color"]
      /\ detect_demographics "Black men and white women"
         = ["women"; "men"; "white"; "black"; "women_of_color"; "white_men"]).
Proof.
  split; split; vm_compute; reflexivity.
Qed.

(** C4: the worked example of the coding guide.  The text should yield
    the two composite targets [white_women] and [women_of_color], the
    ones its two phrases name; [detect_demographics] returns the
    single-axis names [women] and [white] and no composite. *)
Theorem C4_glass_ceiling_example :
  phrase_targets
    "White women are up against a glass ceiling, but women of color are up against a concrete ceiling"
  = ["women_of_color"; "white_women"]
  /\ detect_demographics
       "White women are up against a glass ceiling, but women of color are up against a concrete ceiling"
     = ["women"; "white"].
Proof.
  split; vm_compute; reflexivity.
Qed.

(** C7: a composite target is in the result only when a gender keyword
    and a race-ethnicity keyword both matched in that same text; so a
    text in which neither axis matches gets no composite target. *)
Theorem C7_composite_needs_both_axes (text composite : string) :
  In composite composite_targets ->
  In composite (detect_demographics text) ->
  gender_term_matched text = true /\ race_term_matched text = true.
Proof.
  unfold composite_targets, gender_term_matched, race_term_matched.
  intros Hc Hin. rewrite detect_demographics_resolve in Hin.
  simpl in Hc.
  destruct Hc as [<- | [<- | [<- | [<- | []]]]];
    destruct (hit "women" text), (hit "men" text), (hit "white" text),
      (hit "black" text), (hit "poc" text);
    cbn in Hin |- *; auto; exfalso;
    decompose [or] Hin; try discriminate; try contradiction.
Qed.

(** C7 on a text whose result holds [women_of_color]. *)
Lemma C7_composite_needs_both_axes_witness :
  gender_term_matched "Black women lead" = true
  /\ race_term_matched "Black women lead" = true.
Proof.
  apply (C7_composite_needs_both_axes "Black women lead" "women_of_color").
  - simpl; auto.
  - vm_compute; auto 10.
Defined.

(** C10: for every input, the result has no duplicates, holds only
    names of the seven-element set, holds [women_of_color] only with
    [women] and one of [black], [poc], and holds [white_men] only with
    both [men] and [white]. *)
Theorem C10_result_shape (text : string) :
  NoDup (detect_demographics text)
  /\ incl (detect_demographics text) detectable_names
  /\ (In "women_of_color" (detect_demographics text) ->
      In "women" (detect_demographics text)
      /\ (In "black" (detect_demographics text)
          \/ In "poc" (detect_demographics text)))
  /\ (In "white_men" (detect_demographics text) ->
      In "men" (detect_demographics text)
      /\ In "white" (detect_demographics text)).
Proof.
  split; [rewrite detect_demographics_resolve; apply resolve_NoDup |].
  split.
  { intros x Hx. apply in_detect_demographics in Hx.
    unfold detectable_names.
    decompose [or and] Hx; subst x; simpl; auto 10. }
  rewrite !in_detect_demographics.
  split; intros H; decompose [or and] H; clear H; try discriminate;
    match goal with
    | H : _ && _ = true |- _ => apply andb_true_iff in H; destruct H as [Ha Hb]
    end.
  - apply orb_true_iff in Hb. destruct Hb as [Hb | Hb]; rewrite Ha, Hb; auto 10.
  - rewrite Ha, Hb; auto 10.
Qed.

(** * Properties of the analysis loop *)

(** [score > 0.5] as a proposition. *)
Lemma above_half_iff (score : Q) : above_half score = true <-> (1 # 2 < score)%Q.
Proof.
  unfold above_half. rewrite negb_true_iff. split.
  - intros H. apply Qnot_le_lt. intros Hle.
    apply Qle_bool_iff in Hle. congruence.
  - intros H. destruct (Qle_bool score (1 # 2)) eqn:E; [| reflexivity].
    apply Qle_bool_iff in E. exfalso. exact (Qlt_not_le _ _ H E).
Qed.

(** The candidate labels all have a first word. *)
Lemma first_word_frame_label (label : string) :
  In label frame_labels -> exists frame, first_word label = Ok frame.
Proof.
  simpl. intros [<- | [<- | [<- | [<- | []]]]]; eexists; vm_compute; reflexivity.
Qed.

(** The comprehension succeeds when every label has a first word, and
    keeps exactly the pairs that pass the filter. *)
Lemma high_confidence_spec (pairs : list (string * Q)) :
  (forall label score, In (label, score) pairs ->
     exists frame, first_word label = Ok frame) ->
  exists detected,
    high_confidence pairs = Ok detected
    /\ forall frame score,
         In (frame, score) detected <->
         exists label, In (label, score) pairs
                       /\ first_word label = Ok frame
                       /\ above_half score = true.
Proof.
  induction pairs as [| [label score] rest IH]; intros Hw.
  - exists []. split; [reflexivity |].
    intros frame s; split; [intros [] | intros (l & [] & _)].
  - destruct IH as (tl & Htl & Hspec).
    { intros l s Hin. apply (Hw l s). right; exact Hin. }
    destruct (Hw label score (or_introl eq_refl)) as (w & Hfw).
    cbn [high_confidence]. rewrite Htl, Hfw. cbn [bind].
    destruct (above_half score) eqn:A.
    + exists ((w, score) :: tl). split; [reflexivity |].
      intros frame s; split.
      * intros [E | Hin].
        -- injection E as <- <-. exists label. simpl; auto.
        -- apply Hspec in Hin. destruct Hin as (l & Hin & Hl & Hs).
           exists l. simpl; auto.
      * intros (l & [E | Hin] & Hl & Hs).
        -- injection E as <- <-. rewrite Hfw in Hl. injection Hl as <-.
           left; reflexivity.
        -- right. apply Hspec. exists l; auto.
    + exists tl. split; [reflexivity |].
      intros frame s; split.
      * intros Hin. apply Hspec in Hin. destruct Hin as (l & Hin & Hl & Hs).
        exists l. simpl; auto.
      * intros (l & [E | Hin] & Hl & Hs).
        -- injection E as <- <-. congruence.
        -- apply Hspec. exists l; auto.
Qed.

(** The loop over a concatenation runs the second part from where the
    first one stopped, unless the first one raised. *)
Lemma analyze_loop_app (classifier : classifier_t) (xs ys : list article) :
  forall results,
    analyze_loop classifier (xs ++ ys) results =
    match analyze_loop classifier xs results with
    | (results', None) => analyze_loop classifier ys results'
    | (results', Some e) => (results', Some e)
    end.
Proof.
  induction xs as [| x xs IH]; intros results; simpl; [reflexivity |].
  destruct (analyze_article classifier x); [apply IH | reflexivity].
Qed.

(** Every record the loop adds describes one of the articles, and its
    demographics are those of the article's content. *)
Lemma analyze_loop_records (classifier : classifier_t) (articles : list article) :
  forall results r,
    In r (fst (analyze_loop classifier articles results)) ->
    In r results
    \/ exists a, In a articles
                 /\ an_article_id r = article_id a
                 /\ an_title r = title a
                 /\ an_demographics r = detect_demographics (content a).
Proof.
  induction articles as [| a rest IH]; intros results r Hin; simpl in Hin.
  - left; exact Hin.
  - destruct (analyze_article classifier a) as [ra | e] eqn:E.
    + apply IH in Hin. destruct Hin as [Hin | (b & Hb & Hr)].
      * apply in_app_iff in Hin. destruct Hin as [Hin | [<- | []]].
        -- left; exact Hin.
        -- right. exists a. split; [left; reflexivity |].
           unfold analyze_article in E.
           destruct (classifier (content a) frame_labels); [| discriminate].
           cbn [bind] in E.
           destruct (detected_frames f); [| discriminate].
           cbn [bind] in E. injection E as <-. simpl; auto.
      * right. exists b. split; [right; exact Hb | exact Hr].
    + left; exact Hin.
Qed.

(** * The claims about frame detection and the analysis loop *)

(** C6: with the candidate labels of the notebook, frame detection
    succeeds, and a label's frame is detected with its score exactly
    when that score is strictly above the threshold, 0.5; a score of
    0.5 is not a detection, and any score above 0.5 is one. *)
Theorem C6_strict_threshold (fr : frame_result) :
  (forall label, In label (labels fr) -> In label frame_labels) ->
  exists detected,
    detected_frames fr = Ok detected
    /\ forall label score,
         In (label, score) (combine (labels fr) (scores fr)) ->
         exists frame,
           first_word label = Ok frame
           /\ (In (frame, score) detected <-> (confidence_threshold < score)%Q).
Proof.
  intros Hlabels. unfold detected_frames.
  assert (Hw : forall label score,
             In (label, score) (combine (labels fr) (scores fr)) ->
             exists frame, first_word label = Ok frame).
  { intros label score Hin. apply first_word_frame_label, Hlabels.
    exact (in_combine_l _ _ _ _ Hin). }
  destruct (high_confidence_spec _ Hw) as (detected & Hd & Hspec).
  exists detected. split; [exact Hd |].
  intros label score Hin.
  destruct (Hw _ _ Hin) as (frame & Hf).
  exists frame. split; [exact Hf |].
  unfold confidence_threshold. rewrite Hspec, <- above_half_iff. split.
  - intros (l & _ & _ & Ha). exact Ha.
  - intros Ha. exists label. auto.
Qed.

(** C6 on the candidate labels with scores 0.9, 0.5, 0.51 and 0.3. *)
Lemma C6_strict_threshold_witness :
  exists detected,
    detected_frames (mkFrameResult frame_labels [9 # 10; 1 # 2; 51 # 100; 3 # 10])
    = Ok detected
    /\ forall label score,
         In (label, score)
            (combine frame_labels [9 # 10; 1 # 2; 51 # 100; 3 # 10]) ->
         exists frame,
           first_word label = Ok frame
           /\ (In (frame, score) detected <-> (confidence_threshold < score)%Q).
Proof.
  apply (C6_strict_threshold
           (mkFrameResult frame_labels [9 # 10; 1 # 2; 51 # 100; 3 # 10])).
  simpl. intros label H. exact H.
Defined.

(** The boundary, evaluated: 0.9 and 0.51 are detections, 0.5 and 0.3
    are not. *)
Example detected_frames_boundary :
  detected_frames (mkFrameResult frame_labels [9 # 10; 1 # 2; 51 # 100; 3 # 10])
  = Ok [("underrepresentation", 9 # 10); ("obstacles", 51 # 100)].
Proof. vm_compute. reflexivity. Qed.

(** C5 as stated fails: when the oracle fails on the first article, the
    cell stops with the exception.  [results] holds no record for that
    article, undetermined or other, and the second article, which the
    oracle would have answered, is never analysed. *)
Lemma C5_counterexample :
  flaky_oracle "Women face barriers" frame_labels = Raise (OracleError "timeout")
  /\ (exists r, analyze_article flaky_oracle
                  (sample_article "a2" "Black women broke through") = Ok r)
  /\ analysis_cell flaky_oracle
       [sample_article "a1" "Women face barriers";
        sample_article "a2" "Black women broke through"] []
     = ([], Some (OracleError "timeout")).
Proof.
  split; [reflexivity |]. split; [| reflexivity].
  eexists. vm_compute. reflexivity.
Qed.

(** C5, amended: when the classifier call raises for an article, the
    loop stops with that exception; [results] holds exactly what the
    articles before it produced, and nothing for the failing article or
    any later one. *)
Theorem C5_failure_stops_loop (classifier : classifier_t)
  (before after : list article) (a : article)
  (results done : list analysis) (e : py_exn) :
  analyze_loop classifier before results = (done, None) ->
  classifier (content a) frame_labels = Raise e ->
  analyze_loop classifier (before ++ a :: after) results = (done, Some e).
Proof.
  intros Hbefore Hfail.
  rewrite analyze_loop_app, Hbefore. cbn [analyze_loop].
  unfold analyze_article. rewrite Hfail. reflexivity.
Qed.

(** C5, amended, with the oracle failing on the second of three articles. *)
Lemma C5_failure_stops_loop_witness :
  analyze_loop flaky_oracle
    ([sample_article "a0" "White men dominate"]
       ++ sample_article "a1" "Women face barriers"
       :: [sample_article "a2" "Black women broke through"]) []
  = ([mkAnalysis "a0" "a0"
        [("underrepresentation", 9 # 10); ("obstacles", 51 # 100)]
        ["men"; "white"; "white_men"]],
     Some (OracleError "timeout")).
Proof.
  apply (C5_failure_stops_loop flaky_oracle
           [sample_article "a0" "White men dominate"]
           [sample_article "a2" "Black women broke through"]
           (sample_article "a1" "Women face barriers")).
  - vm_compute. reflexivity.
  - reflexivity.
Defined.

(** * More about Python strings *)

Module PyStrFacts.
Import PyStr.

Lemma lower_char_idempotent (c : ascii) : lower_char (lower_char c) = lower_char c.
Proof. destruct c as [[] [] [] [] [] [] [] []]; reflexivity. Qed.


Lemma lower_idempotent (s : string) : lower (lower s) = lower s.
Proof.
  induction s as [| c s IH]; simpl; [reflexivity |].
  now rewrite lower_char_idempotent, IH.
Qed.


Lemma lower_same_up_to_case (s t : string) :
  same_up_to_case s t -> lower s = lower t.
Proof.
  unfold same_up_to_case. revert t.
  induction s as [| c s IH]; intros [| d t] H; simpl in *;
    inversion H; subst; [reflexivity |].
  f_equal; auto.
Qed.

Lemma length_zero_empty (s : string) : (String.length s =? 0)%nat = true -> s = "".
Proof. destruct s; simpl; [reflexivity | discriminate]. Qed.

Lemma length_app (s t : string) :
  String.length (s ++ t) = (String.length s + String.length t)%nat.
Proof. induction s as [| c s IH]; simpl; [reflexivity | now rewrite IH]. Qed.

Lemma app_assoc_string (u v w : string) : ((u ++ v) ++ w = u ++ (v ++ w))%string.
Proof. induction u as [| c u IH]; simpl; [reflexivity | now rewrite IH]. Qed.

Lemma app_empty_r (s : string) : (s ++ "")%string = s.
Proof. induction s as [| c s IH]; simpl; [reflexivity | now rewrite IH]. Qed.

Lemma has_space_app (s t : string) :
  has_space (s ++ t) = has_space s || has_space t.
Proof.
  induction s as [| c s IH]; simpl; [reflexivity |].
  now rewrite IH, orb_assoc.
Qed.

(** The words, put back together, are the text without its whitespace. *)
Lemma split_acc_concat (s : string) :
  forall cur,
    fold_right String.append "" (split_acc s cur) = (cur ++ strip_spaces s)%string.
Proof.
  induction s as [| c s IH]; intros cur; simpl.
  - destruct (String.length cur =? 0)%nat eqn:E; simpl.
    + apply length_zero_empty in E. now subst.
    + reflexivity.
  - destruct (isspace c).
    + destruct (String.length cur =? 0)%nat eqn:E; simpl.
      * apply length_zero_empty in E. subst. now rewrite IH.
      * now rewrite IH.
    + rewrite IH, app_assoc_string. reflexivity.
Qed.

(** Every word is non-empty and free of whitespace. *)
Lemma split_acc_words (s : string) :
  forall cur,
    has_space cur = false ->
    Forall (fun w => w <> "" /\ has_space w = false) (split_acc s cur).
Proof.
  induction s as [| c s IH]; intros cur Hcur; simpl.
  - destruct cur; simpl; constructor; [| constructor].
    split; [discriminate | exact Hcur].
  - destruct (isspace c) eqn:Ec.
    + destruct cur; simpl.
      * apply IH; reflexivity.
      * constructor; [split; [discriminate | exact Hcur] | apply IH; reflexivity].
    + apply IH. rewrite has_space_app, Hcur. simpl. now rewrite Ec.
Qed.

(** At most one word for every two characters, rounded up. *)
Lemma split_acc_length (s : string) :
  forall cur,
    (2 * List.length (split_acc s cur)
     <= String.length s + (if (String.length cur =? 0)%nat then 1 else 2))%nat.
Proof.
  induction s as [| c s IH]; intros cur; simpl.
  - destruct (String.length cur =? 0)%nat; simpl; lia.
  - destruct (isspace c).
    + destruct (String.length cur =? 0)%nat; simpl.
      * specialize (IH ""); simpl in IH. lia.
      * specialize (IH ""); simpl in IH. lia.
    + specialize (IH (cur ++ String c "")%string).
      rewrite length_app in IH. simpl in IH.
      replace (String.length cur + 1 =? 0)%nat with false in IH
        by (symmetry; apply Nat.eqb_neq; lia).
      destruct (String.length cur =? 0)%nat; lia.
Qed.

End PyStrFacts.

(** * More about the matcher *)

Module ReMore.
Import Re.

(** A literal reads itself, in one way. *)
Lemma match_here_lit_app (k : string) :
  forall prev rest,
    match_here (lit k) prev (k ++ rest) = [(last_char k prev, rest)].
Proof.
  induction k as [| c k IH]; intros prev rest; simpl; [reflexivity |].
  rewrite Ascii.eqb_refl. simpl. rewrite IH. reflexivity.
Qed.

(** The ways an alternation of literals matches: one per alternative
    that starts the text. *)
Lemma in_match_here_alts (ws : list string) :
  forall w prev s st,
    In st (match_here (alts w ws) prev s) <->
    exists k, In k (w :: ws)
              /\ s = (k ++ snd st)%string /\ fst st = last_char k prev.
Proof.
  induction ws as [| w' ws IH]; intros w prev s st; simpl alts.
  - split.
    + intros H. apply ReFacts.match_here_lit in H. exists w. simpl; tauto.
    + intros (k & [<- | []] & Hs & Hf). subst s.
      rewrite match_here_lit_app. left. destruct st; simpl in *; now subst.
  - cbn [match_here]. rewrite in_app_iff, IH. split.
    + intros [H | (k & Hk & Hs)].
      * apply ReFacts.match_here_lit in H. exists w. simpl; tauto.
      * exists k. split; [right; exact Hk | exact Hs].
    + intros (k & [<- | Hk] & Hs & Hf).
      * left. subst s. rewrite match_here_lit_app.
        left. destruct st; simpl in *; now subst.
      * right. exists k. auto.
Qed.

(** [search] finds a match exactly when there is one at some position. *)
Lemma search_from_iff (r : regex) (s : string) :
  forall prev,
    search_from r prev s = true <->
    exists u s', s = (u ++ s')%string /\ matches_at r (last_char u prev) s' = true.
Proof.
  intros prev. split.
  - revert prev. induction s as [| c s IH]; intros prev H; simpl in H;
      apply orb_true_iff in H; destruct H as [H | H].
    + exists "", "". auto.
    + discriminate.
    + exists "", (String c s). auto.
    + destruct (IH _ H) as (u & s' & Hs & Hm).
      exists (String c u), s'. simpl. now rewrite Hs.
  - intros (u & s' & -> & Hm). apply ReFacts.search_from_skip, Hm.
Qed.

Lemma last_char_nonempty (k : string) (p q : option ascii) :
  k <> "" -> last_char k p = last_char k q.
Proof.
  destruct k as [| c k]; [congruence | reflexivity].
Qed.

Lemma word_edged_nonempty (k : string) : word_edged k = true -> k <> "".
Proof. destruct k; [discriminate | discriminate]. Qed.

Lemma head_char_app (k rest : string) :
  k <> "" -> head_char (k ++ rest) = head_char k.
Proof. destruct k; [congruence | reflexivity]. Qed.

(** The two boundaries around a word-edged keyword. *)
Lemma at_boundary_before (k rest : string) (prev : option ascii) :
  word_edged k = true ->
  at_boundary prev (k ++ rest) = negb (word_opt prev).
Proof.
  intros H. unfold at_boundary.
  rewrite (head_char_app _ _ (word_edged_nonempty _ H)).
  apply andb_true_iff in H. destruct H as [-> _].
  now destruct (word_opt prev).
Qed.

Lemma at_boundary_after (k rest : string) (prev : option ascii) :
  word_edged k = true ->
  at_boundary (last_char k prev) rest = negb (word_opt (head_char rest)).
Proof.
  intros H. unfold at_boundary.
  rewrite (last_char_nonempty k prev None (word_edged_nonempty _ H)).
  apply andb_true_iff in H. destruct H as [_ ->]. reflexivity.
Qed.

(** [\b(k1|...|kn)\b] at a position. *)
Lemma matches_at_bounded_iff (w : string) (ws : list string)
  (prev : option ascii) (s : string) :
  forallb word_edged (w :: ws) = true ->
  (matches_at (bounded w ws) prev s = true <->
   exists k rest, In k (w :: ws) /\ s = (k ++ rest)%string
                  /\ word_opt prev = false
                  /\ word_opt (head_char rest) = false).
Proof.
  intros Hedge. rewrite forallb_forall in Hedge.
  rewrite ReFacts.matches_at_bounded, andb_true_iff, existsb_exists. split.
  - intros (B1 & st & Hin & B2).
    apply in_match_here_alts in Hin. destruct Hin as (k & Hk & Hs & Hf).
    exists k, (snd st). split; [exact Hk |]. split; [exact Hs |].
    rewrite Hs, (at_boundary_before _ _ _ (Hedge _ Hk)) in B1.
    rewrite Hf, (at_boundary_after _ _ _ (Hedge _ Hk)) in B2.
    apply negb_true_iff in B1, B2. auto.
  - intros (k & rest & Hk & -> & P1 & P2). split.
    + rewrite (at_boundary_before _ _ _ (Hedge _ Hk)), P1. reflexivity.
    + exists (last_char k prev, rest). split.
      * apply in_match_here_alts. exists k. auto.
      * cbn [fst snd].
        rewrite (at_boundary_after _ _ _ (Hedge _ Hk)), P2. reflexivity.
Qed.

(** [\b(k1|...|kn)\b] anywhere: one of the keywords occurs as a whole
    word. *)
Lemma search_bounded_iff (w : string) (ws : list string) (s : string) :
  forallb word_edged (w :: ws) = true ->
  (search (bounded w ws) s = true <->
   exists k, In k (w :: ws) /\ occurs_as_word k s).
Proof.
  intros Hedge. unfold search, occurs_as_word. rewrite search_from_iff. split.
  - intros (u & s' & Hs & Hm).
    apply (matches_at_bounded_iff _ _ _ _ Hedge) in Hm.
    destruct Hm as (k & rest & Hk & -> & P1 & P2).
    exists k. split; [exact Hk |]. exists u, rest. auto.
  - intros (k & Hk & u & rest & Hs & P1 & P2).
    exists u, (k ++ rest)%string. split; [exact Hs |].
    apply (matches_at_bounded_iff _ _ _ _ Hedge).
    exists k, rest. auto.
Qed.

End ReMore.

(** * More about [detect_demographics] *)

(** A pattern hits exactly when one of its keywords occurs in the
    lowered text as a whole word. *)
Lemma hit_iff_whole_word (demo text : string) (keywords : list string) :
  dict_get pattern_keywords demo = Some keywords ->
  (hit demo text = true <->
   exists k, In k keywords /\ occurs_as_word k (PyStr.lower text)).
Proof.
  unfold dict_get, pattern_keywords. cbn [find fst snd].
  destruct (String.eqb demo "women") eqn:E1;
    [apply String.eqb_eq in E1; subst demo; intros [= <-];
     apply ReMore.search_bounded_iff; reflexivity |].
  destruct (String.eqb demo "men") eqn:E2;
    [apply String.eqb_eq in E2; subst demo; intros [= <-];
     apply ReMore.search_bounded_iff; reflexivity |].
  destruct (String.eqb demo "white") eqn:E3;
    [apply String.eqb_eq in E3; subst demo; intros [= <-];
     apply ReMore.search_bounded_iff; reflexivity |].
  destruct (String.eqb demo "black") eqn:E4;
    [apply String.eqb_eq in E4; subst demo; intros [= <-];
     apply ReMore.search_bounded_iff; reflexivity |].
  destruct (String.eqb demo "poc") eqn:E5;
    [apply String.eqb_eq in E5; subst demo; intros [= <-];
     apply ReMore.search_bounded_iff; reflexivity |].
  discriminate.
Qed.





(** Membership of each of the seven names, in terms of the hits. *)
Lemma detect_membership (text : string) :
  (In "women" (detect_demographics text) <-> hit "women" text = true)
  /\ (In "men" (detect_demographics text) <-> hit "men" text = true)
  /\ (In "white" (detect_demographics text) <-> hit "white" text = true)
  /\ (In "black" (detect_demographics text) <-> hit "black" text = true)
  /\ (In "poc" (detect_demographics text) <-> hit "poc" text = true)
  /\ (In "women_of_color" (detect_demographics text) <->
      hit "women" text && (hit "black" text || hit "poc" text) = true)
  /\ (In "white_men" (detect_demographics text) <->
      hit "men" text && hit "white" text = true).
Proof.
  rewrite !in_detect_demographics.
  repeat split;
    try (intros [[A B] | [[A B] | [[A B] | [[A B] | [[A B] | [[A B] | [A B]]]]]]];
         try discriminate; exact A);
    intros A; auto 12.
Qed.

Lemma composite_iff_single_axis (text : string) :
  (In "women_of_color" (detect_demographics text) <->
   In "women" (detect_demographics text)
   /\ (In "black" (detect_demographics text)
       \/ In "poc" (detect_demographics text)))
  /\ (In "white_men" (detect_demographics text) <->
      In "men" (detect_demographics text)
      /\ In "white" (detect_demographics text)).
Proof.
  destruct (detect_membership text) as (Hw & Hm & Hwh & Hb & Hp & Hwoc & Hwm).
  rewrite Hwoc, Hwm, Hw, Hm, Hwh, Hb, Hp.
  rewrite !andb_true_iff, orb_true_iff. tauto.
Qed.


(** X1: for an ASCII text, a single-axis name is in the result exactly
    when one of the keywords of its pattern occurs in the lowered text
    as a whole word, with no letter, digit or underscore right before
    or after it. *)
Theorem detect_single_axis_whole_word (demo text : string) (keywords : list string) :
  is_ascii text = true ->
  dict_get pattern_keywords demo = Some keywords ->
  (In demo (detect_demographics text) <->
   exists k, In k keywords /\ occurs_as_word k (PyStr.lower text)).
Proof.
  intros _ E. rewrite <- (hit_iff_whole_word _ _ _ E), in_detect_demographics.
  assert (Hd : In demo ["women"; "men"; "white"; "black"; "poc"]).
  { revert E. unfold dict_get, pattern_keywords. cbn [find fst snd].
    destruct (String.eqb demo "women") eqn:E1;
      [apply String.eqb_eq in E1; simpl; auto |].
    destruct (String.eqb demo "men") eqn:E2;
      [apply String.eqb_eq in E2; simpl; auto |].
    destruct (String.eqb demo "white") eqn:E3;
      [apply String.eqb_eq in E3; simpl; auto |].
    destruct (String.eqb demo "black") eqn:E4;
      [apply String.eqb_eq in E4; simpl; auto |].
    destruct (String.eqb demo "poc") eqn:E5;
      [apply String.eqb_eq in E5; simpl; auto 6 |].
    discriminate. }
  simpl in Hd.
  destruct Hd as [<- | [<- | [<- | [<- | [<- | []]]]]]; split;
    try (intros [[A B] | [[A B] | [[A B] | [[A B] | [[A B] | [[A B] | [A B]]]]]]];
         try discriminate; exact A);
    intros A; auto 10.
Qed.

Lemma detect_single_axis_whole_word_witness :
  In "black" (detect_demographics "Two African American directors") <->
  exists k, In k ["black"; "african american"]
            /\ occurs_as_word k (PyStr.lower "Two African American directors").
Proof.
  apply (detect_single_axis_whole_word "black" "Two African American directors"
           ["black"; "african american"]).
  - reflexivity.
  - reflexivity.
Defined.

(** X2: the detector is case-insensitive: two texts that differ only
    in the case of their letters get the same result. *)
Theorem detect_case_insensitive (s t : string) :
  same_up_to_case s t -> detect_demographics s = detect_demographics t.
Proof.
  intros H. apply PyStrFacts.lower_same_up_to_case in H.
  rewrite !detect_demographics_resolve. unfold hit. rewrite H. reflexivity.
Qed.

Lemma detect_case_insensitive_witness :
  detect_demographics "BLACK Women" = detect_demographics "black wOMEN".
Proof.
  apply (detect_case_insensitive "BLACK Women" "black wOMEN").
  unfold same_up_to_case. simpl. repeat constructor.
Defined.

(** X3: the composites are determined by the single-axis names of the
    result: [women_of_color] is there exactly when [women] and one of
    [black], [poc] are, and [white_men] exactly when [men] and [white]
    are. *)
Theorem detect_composite_iff (text : string) :
  (In "women_of_color" (detect_demographics text) <->
   In "women" (detect_demographics text)
   /\ (In "black" (detect_demographics text)
       \/ In "poc" (detect_demographics text)))
  /\ (In "white_men" (detect_demographics text) <->
      In "men" (detect_demographics text)
      /\ In "white" (detect_demographics text)).
Proof.
  destruct (composite_iff_single_axis text) as [Hwoc Hwm].
  split; [exact Hwoc | exact Hwm].
Qed.





(** * More about the text statistics and the analysis loop *)

Lemma fold_append_empty (l : list string) :
  Forall (fun w => w <> "" /\ has_space w = false) l ->
  fold_right String.append "" l = "" -> l = [].
Proof.
  intros H E. destruct l as [| w l]; [reflexivity |].
  inversion H as [| ? ? [Hw _] _]; subst.
  simpl in E. destruct w; [congruence | discriminate].
Qed.

(** X6: for an article whose content is ASCII, the words counted by
    [word_count] are non-empty and free of whitespace, put together
    they are the content without its whitespace, there is at most one
    word for every two characters (rounded up), and the count is zero
    exactly for a content made of whitespace only. *)
Theorem word_count_facts (a : article) :
  is_ascii (content a) = true ->
  Forall (fun w => w <> "" /\ has_space w = false) (PyStr.split (content a))
  /\ fold_right String.append "" (PyStr.split (content a))
     = strip_spaces (content a)
  /\ (2 * word_count a <= content_length a + 1)%nat
  /\ (word_count a = 0%nat <-> strip_spaces (content a) = "").
Proof.
  intros _. unfold word_count, content_length, PyStr.split.
  pose proof (PyStrFacts.split_acc_words (content a) "" eq_refl) as Hwords.
  pose proof (PyStrFacts.split_acc_concat (content a) "") as Hcat.
  pose proof (PyStrFacts.split_acc_length (content a) "") as Hlen.
  simpl in Hcat, Hlen.
  split; [exact Hwords |]. split; [exact Hcat |]. split; [exact Hlen |].
  split.
  - intros H0. apply length_zero_iff_nil in H0.
    rewrite <- Hcat, H0. reflexivity.
  - intros Hs. rewrite <- Hcat in Hs.
    rewrite (fold_append_empty _ Hwords Hs). reflexivity.
Qed.

Lemma word_count_facts_witness :
  Forall (fun w => w <> "" /\ has_space w = false)
         (PyStr.split (content (sample_article "a1" "  Women  lead the board ")))
  /\ fold_right String.append ""
       (PyStr.split (content (sample_article "a1" "  Women  lead the board ")))
     = strip_spaces (content (sample_article "a1" "  Women  lead the board "))
  /\ (2 * word_count (sample_article "a1" "  Women  lead the board ")
      <= content_length (sample_article "a1" "  Women  lead the board ") + 1)%nat
  /\ (word_count (sample_article "a1" "  Women  lead the board ") = 0%nat
      <-> strip_spaces (content (sample_article "a1" "  Women  lead the board ")) = "").
Proof.
  apply (word_count_facts (sample_article "a1" "  Women  lead the board ")).
  reflexivity.
Defined.

Lemma analyze_article_fields (classifier : classifier_t) (a : article) (r : analysis) :
  analyze_article classifier a = Ok r ->
  an_article_id r = article_id a
  /\ an_title r = title a
  /\ an_demographics r = detect_demographics (content a).
Proof.
  unfold analyze_article.
  destruct (classifier (content a) frame_labels) as [fr | e]; [| discriminate].
  cbn [bind]. destruct (detected_frames fr) as [d | e]; [| discriminate].
  cbn [bind]. intros [= <-]. simpl. auto.
Qed.

(** What the loop appends: one record per article, in order, up to the
    first article that raises. *)
Lemma analyze_loop_shape (classifier : classifier_t) (articles : list article) :
  forall results,
  exists done,
    fst (analyze_loop classifier articles results) = results ++ done
    /\ (List.length done <= List.length articles)%nat
    /\ map an_article_id done
       = map article_id (firstn (List.length done) articles)
    /\ map an_title done = map title (firstn (List.length done) articles)
    /\ (snd (analyze_loop classifier articles results) = None
        <-> List.length done = List.length articles).
Proof.
  induction articles as [| a rest IH]; intros results; simpl.
  - exists []. rewrite app_nil_r. simpl. repeat split; auto.
  - destruct (analyze_article classifier a) as [r | e] eqn:E.
    + destruct (IH (results ++ [r])) as (done & Hres & Hlen & Hid & Ht & Hnone).
      destruct (analyze_article_fields _ _ _ E) as (Fid & Ft & _).
      exists (r :: done). rewrite Hres, <- app_assoc. simpl.
      rewrite Hid, Ht, Fid, Ft.
      repeat split; auto; try lia.
      * intros H. apply Hnone in H. lia.
      * intros H. apply Hnone. lia.
    + exists []. rewrite app_nil_r. simpl.
      repeat split; auto; try lia; intros H; discriminate.
Qed.

(** X7: after the analysis cell, [results] holds one record per
    article of a prefix of [articles], in the same order and with the
    article's id and title; the prefix is the whole list exactly when
    no exception was raised. *)
Theorem analysis_cell_records_in_order (classifier : classifier_t)
  (articles : list article) (results_before : list analysis) :
  let run := analysis_cell classifier articles results_before in
  let n := List.length (fst run) in
  (n <= List.length articles)%nat
  /\ map an_article_id (fst run) = map article_id (firstn n articles)
  /\ map an_title (fst run) = map title (firstn n articles)
  /\ (snd run = None <-> n = List.length articles).
Proof.
  unfold analysis_cell.
  destruct (analyze_loop_shape classifier articles [])
    as (done & Hres & Hlen & Hid & Ht & Hnone).
  simpl in Hres. cbv zeta. rewrite Hres. auto.
Qed.


(** * The comparison with human coding *)

Lemma mem_In (x : string) (l : list string) : PyStr.mem x l = true <-> In x l.
Proof.
  unfold PyStr.mem. rewrite existsb_exists. split.
  - intros (y & Hy & E). apply String.eqb_eq in E. now subst.
  - intros H. exists x. split; [exact H | apply String.eqb_refl].
Qed.

(** [k in d] agrees with the lookup. *)
Lemma dict_has_get {V : Type} (d : list (string * V)) (k : string) :
  dict_has d k = true <-> exists v, dict_get d k = Some v.
Proof.
  unfold dict_has, dict_keys, dict_get.
  induction d as [| [k' v'] d IH]; simpl.
  - split; [discriminate | intros (v & H); discriminate].
  - destruct (String.eqb k k') eqn:E; simpl.
    + split; [intros _; eexists; reflexivity | reflexivity].
    + exact IH.
Qed.

(** A stored item is found under its key when the keys are distinct. *)
Lemma dict_get_In {V : Type} (d : list (string * V)) (k : string) (v : V) :
  dict_get d k = Some v -> In (k, v) d.
Proof.
  unfold dict_get. induction d as [| [k' v'] d IH]; simpl; [discriminate |].
  destruct (String.eqb k k') eqn:E; simpl.
  - apply String.eqb_eq in E. subst. intros [= <-]. left; reflexivity.
  - intros H. right. exact (IH H).
Qed.

Lemma compare_article_rows (a : article) (r : analysis) (rows : list comparison_row) :
  compare_article a r = Done rows ->
  map (fun row => (cr_article_id row, cr_frame row)) rows
  = map (pair (article_id a)) compared_frames
  /\ Forall (fun row => cr_match row = Bool.eqb (cr_human row) (cr_ml row)
                        /\ cr_ml row = ml_detected r (cr_frame row)) rows.
Proof.
  unfold compare_article. destruct (human_coding a); [| discriminate].
  intros [= <-]. split; [reflexivity |].
  simpl. repeat constructor.
Qed.

(** The loop on articles that all carry a coding: four rows each. *)
Lemma compare_loop_shape (pairs : list (article * analysis)) :
  forall comparison,
    (forall a r, In (a, r) pairs -> human_coding a <> None) ->
    exists rows,
      compare_loop pairs comparison = (comparison ++ rows, None)
      /\ map (fun row => (cr_article_id row, cr_frame row)) rows
         = flat_map (fun ar => map (pair (article_id (fst ar))) compared_frames) pairs
      /\ Forall (fun row => cr_match row = Bool.eqb (cr_human row) (cr_ml row)) rows.
Proof.
  induction pairs as [| [a r] rest IH]; intros comparison H.
  - exists []. simpl. rewrite app_nil_r. auto.
  - cbn [compare_loop].
    destruct (compare_article a r) as [rows | e] eqn:E.
    + destruct (IH (comparison ++ rows)) as (rows' & Hl & Hk & Hm).
      { intros b rb Hb. apply (H b rb). right; exact Hb. }
      destruct (compare_article_rows _ _ _ E) as [Hrows Hmatch].
      exists (rows ++ rows'). rewrite Hl, <- app_assoc. split; [reflexivity |].
      split.
      * rewrite map_app, Hrows, Hk. reflexivity.
      * apply Forall_app. split; [| exact Hm].
        eapply Forall_impl; [| exact Hmatch]. intros row [Hx _]. exact Hx.
    + exfalso. unfold compare_article in E.
      destruct (human_coding a) eqn:Hc; [discriminate |].
      apply (H a r); [left; reflexivity | exact Hc].
Qed.

Lemma combine_fst_firstn {A B : Type} (l : list A) :
  forall l' : list B, map fst (combine l l') = firstn (List.length l') l.
Proof.
  induction l as [| x l IH]; intros [| y l']; simpl; auto.
  now rewrite IH.
Qed.

Lemma flat_map_map {A B C : Type} (f : A -> B) (g : B -> list C) (l : list A) :
  flat_map g (map f l) = flat_map (fun x => g (f x)) l.
Proof.
  induction l as [| x l IH]; simpl; [reflexivity | now rewrite IH].
Qed.

(** X9: when every compared article carries a human coding, the
    comparison cell ends without an exception and holds, for each of
    the first [len(results)] articles in order, one row per frame in
    the order underrepresentation, overrepresentation, obstacles,
    successes; articles beyond the results are left out without a
    word. *)
Theorem comparison_cell_rows (articles : list article) (results : list analysis) :
  (forall a r, In (a, r) (combine articles results) -> human_coding a <> None) ->
  exists rows,
    comparison_cell articles results = (rows, None)
    /\ map (fun row => (cr_article_id row, cr_frame row)) rows
       = flat_map (fun a => map (pair (article_id a)) compared_frames)
                  (firstn (List.length results) articles)
    /\ List.length rows
       = (4 * Nat.min (List.length articles) (List.length results))%nat
    /\ Forall (fun row => cr_match row = Bool.eqb (cr_human row) (cr_ml row)) rows.
Proof.
  intros H. unfold comparison_cell.
  destruct (compare_loop_shape _ [] H) as (rows & Hl & Hk & Hm).
  exists rows. simpl in Hl. split; [exact Hl |].
  assert (Hkeys : map (fun row => (cr_article_id row, cr_frame row)) rows
                  = flat_map (fun a => map (pair (article_id a)) compared_frames)
                      (firstn (List.length results) articles)).
  { rewrite Hk, <- combine_fst_firstn, flat_map_map. reflexivity. }
  split; [exact Hkeys |]. split; [| exact Hm].
  apply (f_equal (@List.length _)) in Hkeys.
  rewrite length_map in Hkeys. rewrite Hkeys.
  rewrite (Nat.min_comm (List.length articles)).
  rewrite <- (length_firstn (List.length results) articles).
  generalize (firstn (List.length results) articles) as l.
  induction l as [| x l IH]; simpl; [reflexivity |].
  simpl in IH. rewrite IH. lia.
Qed.

Lemma comparison_cell_rows_witness :
  exists rows,
    comparison_cell
      [coded_article "a1" "Women face barriers" [("obstacles", [("women", 1)])];
       coded_article "a2" "Black women broke through" []]
      [mkAnalysis "a1" "a1" [("obstacles", 9 # 10)] ["women"]]
    = (rows, None)
    /\ map (fun row => (cr_article_id row, cr_frame row)) rows
       = [("a1", "underrepresentation"); ("a1", "overrepresentation");
          ("a1", "obstacles"); ("a1", "successes")].
Proof.
  destruct (comparison_cell_rows
              [coded_article "a1" "Women face barriers" [("obstacles", [("women", 1)])];
               coded_article "a2" "Black women broke through" []]
              [mkAnalysis "a1" "a1" [("obstacles", 9 # 10)] ["women"]])
    as (rows & Hrun & Hkeys & _).
  - simpl. intros a r [E | []]. injection E as <- _. discriminate.
  - exists rows. split; [exact Hrun | exact Hkeys].
Defined.

(** The loop stops at the first article without a coding, with the
    rows the articles before it give. *)
Lemma compare_loop_key_error (a : article) (after : list article) :
  human_coding a = None ->
  forall before results comparison,
    (forall b, In b before -> human_coding b <> None) ->
    (List.length before < List.length results)%nat ->
    exists rows,
      compare_loop (combine (before ++ a :: after) results) comparison
      = (comparison ++ rows, Some (KeyError "human_coding"))
      /\ compare_loop (combine before results) comparison
         = (comparison ++ rows, None)
      /\ map (fun row => (cr_article_id row, cr_frame row)) rows
         = flat_map (fun b => map (pair (article_id b)) compared_frames) before
      /\ List.length rows = (4 * List.length before)%nat.
Proof.
  intros Ha. induction before as [| b before IH]; intros results comparison Hb Hlen.
  - destruct results as [| r results]; simpl in Hlen; [lia |].
    exists []. simpl. unfold compare_article. rewrite Ha, app_nil_r. auto.
  - destruct results as [| r results]; simpl in Hlen; [lia |].
    simpl. unfold compare_article at 1 2.
    destruct (human_coding b) as [coding |] eqn:Hc;
      [| exfalso; apply (Hb b); [left; reflexivity | exact Hc]].
    destruct (IH results
                (comparison ++
                 map (fun frame =>
                        mkComparison (article_id b) frame
                          (human_detected coding frame) (ml_detected r frame)
                          (Bool.eqb (human_detected coding frame) (ml_detected r frame)))
                     compared_frames))
      as (rows & Hrun & Halone & Hkeys & Hn).
    { intros x Hx. apply Hb. right; exact Hx. }
    { lia. }
    eexists. rewrite Hrun, Halone, <- app_assoc.
    split; [reflexivity |]. split; [reflexivity |]. split.
    + rewrite map_app, Hkeys. reflexivity.
    + rewrite length_app, length_map, Hn. simpl. lia.
Qed.

(** X10: an article without the key [human_coding] stops the
    comparison with a KeyError; [comparison] then holds exactly the
    rows that comparing the articles before it alone gives, four per
    article, in order, and nothing of that article or the later ones. *)
Theorem comparison_cell_key_error (before after : list article) (a : article)
  (results : list analysis) :
  (forall b, In b before -> human_coding b <> None) ->
  human_coding a = None ->
  (List.length before < List.length results)%nat ->
  exists rows,
    comparison_cell (before ++ a :: after) results
    = (rows, Some (KeyError "human_coding"))
    /\ comparison_cell before results = (rows, None)
    /\ map (fun row => (cr_article_id row, cr_frame row)) rows
       = flat_map (fun b => map (pair (article_id b)) compared_frames) before
    /\ List.length rows = (4 * List.length before)%nat.
Proof.
  intros Hb Ha Hlen. unfold comparison_cell.
  destruct (compare_loop_key_error a after Ha before results [] Hb Hlen)
    as (rows & Hrun & Halone & Hkeys & Hn).
  exists rows. simpl in Hrun, Halone. auto.
Qed.

Lemma comparison_cell_key_error_witness :
  exists rows,
    comparison_cell
      ([coded_article "a1" "Women face barriers" [("obstacles", [("women", 1)])]]
         ++ sample_article "a2" "Black women broke through"
         :: [coded_article "a3" "White men dominate" []])
      [mkAnalysis "a1" "a1" [("obstacles", 9 # 10)] ["women"];
       mkAnalysis "a2" "a2" [] ["women"; "black"; "women_of_color"];
       mkAnalysis "a3" "a3" [] ["men"; "white"; "white_men"]]
    = (rows, Some (KeyError "human_coding"))
    /\ comparison_cell
         [coded_article "a1" "Women face barriers" [("obstacles", [("women", 1)])]]
         [mkAnalysis "a1" "a1" [("obstacles", 9 # 10)] ["women"];
          mkAnalysis "a2" "a2" [] ["women"; "black"; "women_of_color"];
          mkAnalysis "a3" "a3" [] ["men"; "white"; "white_men"]]
       = (rows, None)
    /\ map (fun row => (cr_article_id row, cr_frame row)) rows
       = [("a1", "underrepresentation"); ("a1", "overrepresentation");
          ("a1", "obstacles"); ("a1", "successes")]
    /\ List.length rows = 4%nat.
Proof.
  apply (comparison_cell_key_error
           [coded_article "a1" "Women face barriers" [("obstacles", [("women", 1)])]]
           [coded_article "a3" "White men dominate" []]
           (sample_article "a2" "Black women broke through")).
  - simpl. intros b [<- | []]. discriminate.
  - reflexivity.
  - simpl. lia.
Defined.

(** The human side of a row, from the lookup alone. *)
Lemma human_detected_find (coding : list (string * list (string * Q)))
  (frame : string) :
  human_detected coding frame
  = match dict_get coding frame with
    | Some groups => (0 <? List.length groups)%nat
    | None => false
    end.
Proof.
  unfold human_detected.
  destruct (dict_has coding frame) eqn:E; [reflexivity |].
  destruct (dict_get coding frame) eqn:G; [| reflexivity].
  assert (X : dict_has coding frame = true)
    by (apply dict_has_get; eexists; exact G).
  congruence.
Qed.

Lemma human_detected_shape (h1 : list (string * list (string * Q))) :
  forall h2 frame,
    coding_shape h1 = coding_shape h2 ->
    human_detected h1 frame = human_detected h2 frame.
Proof.
  intros h2 frame. rewrite !human_detected_find. unfold dict_get. revert h2.
  induction h1 as [| [f1 g1] h1 IH]; intros [| [f2 g2] h2] H; simpl in H;
    try discriminate; [reflexivity |].
  injection H as Hf Hg Hrest. subst f2. simpl.
  destruct (String.eqb frame f1); simpl.
  - apply (f_equal (@List.length _)) in Hg. rewrite !length_map in Hg.
    now rewrite Hg.
  - apply IH. exact Hrest.
Qed.

(** X11: the human side of the comparison never reads the tallies:
    two articles with the same id whose codings have the same frames
    and the same groups under each frame get the same rows against any
    result, whatever the counts are, zero included. *)
Theorem compare_article_ignores_tallies (a1 a2 : article) (r : analysis)
  (h1 h2 : list (string * list (string * Q))) :
  article_id a1 = article_id a2 ->
  human_coding a1 = Some h1 ->
  human_coding a2 = Some h2 ->
  coding_shape h1 = coding_shape h2 ->
  compare_article a1 r = compare_article a2 r.
Proof.
  intros Hid H1 H2 Hs. unfold compare_article. rewrite H1, H2, Hid.
  f_equal. apply map_ext. intros frame.
  rewrite (human_detected_shape h1 h2 frame Hs). reflexivity.
Qed.

Lemma compare_article_ignores_tallies_witness :
  compare_article
    (coded_article "a1" "Women face barriers" [("obstacles", [("women", 3)])])
    (mkAnalysis "a1" "a1" [("obstacles", 9 # 10)] ["women"])
  = compare_article
      (coded_article "a1" "Women face barriers" [("obstacles", [("women", 0)])])
      (mkAnalysis "a1" "a1" [("obstacles", 9 # 10)] ["women"]).
Proof.
  apply (compare_article_ignores_tallies
           (coded_article "a1" "Women face barriers" [("obstacles", [("women", 3)])])
           (coded_article "a1" "Women face barriers" [("obstacles", [("women", 0)])])
           (mkAnalysis "a1" "a1" [("obstacles", 9 # 10)] ["women"])
           [("obstacles", [("women", 3)])] [("obstacles", [("women", 0)])]);
    reflexivity.
Defined.

(** What the frame comprehension keeps when it succeeds. *)
Lemma high_confidence_ok (pairs : list (string * Q)) :
  forall detected,
    high_confidence pairs = Ok detected ->
    forall frame score,
      In (frame, score) detected <->
      exists label, In (label, score) pairs
                    /\ first_word label = Ok frame
                    /\ above_half score = true.
Proof.
  induction pairs as [| [label s] rest IH]; intros detected H frame score.
  - injection H as <-. split; [intros [] | intros (l & [] & _)].
  - cbn [high_confidence] in H. destruct (above_half s) eqn:A.
    + destruct (first_word label) as [w | e] eqn:W; cbn [bind] in H;
        [| discriminate].
      destruct (high_confidence rest) as [tl | e] eqn:R; cbn [bind] in H;
        [| discriminate].
      injection H as <-. specialize (IH tl eq_refl frame score). split.
      * intros [[= <- <-] | Hin].
        -- exists label. simpl; auto.
        -- apply IH in Hin. destruct Hin as (l & Hin & Hl & Hs).
           exists l. simpl; auto.
      * intros (l & [[= <- <-] | Hin] & Hl & Hs).
        -- rewrite W in Hl. injection Hl as <-. left; reflexivity.
        -- right. apply IH. exists l; auto.
    + specialize (IH detected H frame score). rewrite IH. split.
      * intros (l & Hin & Hl & Hs). exists l. simpl; auto.
      * intros (l & [[= <- <-] | Hin] & Hl & Hs); [congruence |].
        exists l; auto.
Qed.

(** X12: the analysis and the comparison, put together: for an
    article the loop analysed, the machine side of a comparison row is
    true for a frame exactly when the classifier gave a score above 0.5
    to a label whose first word is that frame. *)
Theorem ml_detected_after_analysis (classifier : classifier_t) (a : article)
  (fr : frame_result) (r : analysis) (frame : string) :
  classifier (content a) frame_labels = Ok fr ->
  analyze_article classifier a = Ok r ->
  (ml_detected r frame = true <->
   exists label score,
     In (label, score) (combine (labels fr) (scores fr))
     /\ first_word label = Ok frame
     /\ (1 # 2 < score)%Q).
Proof.
  intros Hc Ha. unfold analyze_article in Ha. rewrite Hc in Ha. cbn [bind] in Ha.
  destruct (detected_frames fr) as [detected |] eqn:D; [| discriminate].
  cbn [bind] in Ha. injection Ha as <-.
  unfold ml_detected. cbn [an_detected_frames].
  rewrite mem_In, in_map_iff. unfold detected_frames in D. split.
  - intros ([w s] & Hw & Hin). simpl in Hw. subst w.
    apply (high_confidence_ok _ _ D) in Hin.
    destruct Hin as (l & Hin & Hl & Hs).
    exists l, s. rewrite <- above_half_iff. auto.
  - intros (l & s & Hin & Hl & Hs).
    exists (frame, s). split; [reflexivity |].
    apply (high_confidence_ok _ _ D). exists l.
    rewrite above_half_iff. auto.
Qed.

Lemma ml_detected_after_analysis_witness :
  ml_detected
    (mkAnalysis "a1" "a1"
       [("underrepresentation", 9 # 10); ("obstacles", 51 # 100)] ["women"])
    "obstacles" = true <->
  exists label score,
    In (label, score) (combine frame_labels [9 # 10; 1 # 2; 51 # 100; 3 # 10])
    /\ first_word label = Ok "obstacles"
    /\ (1 # 2 < score)%Q.
Proof.
  apply (ml_detected_after_analysis steady_oracle
           (sample_article "a1" "Women face barriers")
           (mkFrameResult frame_labels [9 # 10; 1 # 2; 51 # 100; 3 # 10])).
  - reflexivity.
  - vm_compute. reflexivity.
Defined.

(** * The data exploration cells *)

(** The rows one coding contributes. *)
Lemma in_rows_of_coding (id : string) (coding : list (string * list (string * Q)))
  (row : count_row) :
  In row (rows_of_coding id coding) <->
  fc_article_id row = id
  /\ In (fc_frame row) frame_types
  /\ exists groups,
       dict_get coding (fc_frame row) = Some groups
       /\ In (fc_demographic row, fc_count row) groups.
Proof.
  unfold rows_of_coding. rewrite in_flat_map. split.
  - intros (frame & Hf & Hin).
    destruct (dict_has coding frame); [| contradiction].
    destruct (dict_get coding frame) as [groups |] eqn:G; [| contradiction].
    apply in_map_iff in Hin. destruct Hin as ([g c] & <- & Hg). simpl.
    split; [reflexivity |]. split; [exact Hf |].
    exists groups. auto.
  - intros (Hid & Hf & groups & G & Hin).
    exists (fc_frame row). split; [exact Hf |].
    assert (Hhas : dict_has coding (fc_frame row) = true)
      by (apply dict_has_get; eexists; exact G).
    rewrite Hhas, G. apply in_map_iff.
    exists (fc_demographic row, fc_count row). split; [| exact Hin].
    destruct row; simpl in *. now subst.
Qed.

Lemma extract_rows_spec (df : list article) :
  forall results rows,
    extract_rows df results = Done rows ->
    (forall a, In a df -> human_coding a <> None)
    /\ forall row,
         In row rows <->
         In row results
         \/ exists a coding,
              In a df /\ human_coding a = Some coding
              /\ In row (rows_of_coding (article_id a) coding).
Proof.
  induction df as [| a df IH]; intros results rows H; simpl in H.
  - injection H as <-. split; [intros a [] |].
    intros row; split; [auto | intros [Hin | (a & c & [] & _)]; exact Hin].
  - destruct (human_coding a) as [coding |] eqn:Hc; [| discriminate].
    destruct (IH _ _ H) as [Hall Hrows]. split.
    + intros b [<- | Hb]; [congruence | auto].
    + intros row. rewrite Hrows, in_app_iff. split.
      * intros [[Hin | Hin] | (b & c & Hb & Hcb & Hin)].
        -- left; exact Hin.
        -- right. exists a, coding. simpl; auto.
        -- right. exists b, c. simpl; auto.
      * intros [Hin | (b & c & [<- | Hb] & Hcb & Hin)].
        -- left; left; exact Hin.
        -- left; right. congruence.
        -- right. exists b, c. auto.
Qed.

Lemma extract_rows_fails (df : list article) :
  forall results e,
    extract_rows df results = Fails e ->
    e = TypeError /\ exists a, In a df /\ human_coding a = None.
Proof.
  induction df as [| a df IH]; intros results e H; simpl in H; [discriminate |].
  destruct (human_coding a) as [coding |] eqn:Hc.
  - destruct (IH _ _ H) as (He & b & Hb & Hn). split; [exact He |].
    exists b. simpl; auto.
  - injection H as <-. split; [reflexivity |]. exists a. simpl; auto.
Qed.

Lemma forallb_lacks_coding (articles : list article) :
  forallb lacks_coding articles = true <->
  forall a, In a articles -> human_coding a = None.
Proof.
  rewrite forallb_forall. unfold lacks_coding. split; intros H a Ha.
  - specialize (H a Ha). destruct (human_coding a); [discriminate | reflexivity].
  - rewrite (H a Ha). reflexivity.
Qed.

(** X13: when [extract_frame_counts] succeeds, its rows are exactly
    the items found under the four frame types in the codings of the
    articles: a frame outside the four contributes nothing, and every
    group under a listed frame contributes its row, whatever its name
    (the list of demographic groups in the function filters nothing). *)
Theorem extract_frame_counts_rows (articles : list article) (rows : list count_row) :
  extract_frame_counts articles = Done rows ->
  forall row,
    In row rows <->
    exists a coding groups,
      In a articles
      /\ human_coding a = Some coding
      /\ fc_article_id row = article_id a
      /\ In (fc_frame row) frame_types
      /\ dict_get coding (fc_frame row) = Some groups
      /\ In (fc_demographic row, fc_count row) groups.
Proof.
  unfold extract_frame_counts. intros H row.
  destruct articles as [| a0 rest].
  - injection H as <-. split; [intros [] | intros (a & _ & _ & [] & _)].
  - destruct (forallb lacks_coding (a0 :: rest)); [discriminate |].
    destruct (extract_rows_spec _ _ _ H) as [_ Hrows].
    rewrite Hrows. split.
    + intros [[] | (a & coding & Ha & Hc & Hin)].
      apply in_rows_of_coding in Hin. destruct Hin as (Hid & Hf & groups & G & Hg).
      exists a, coding, groups. auto 10.
    + intros (a & coding & groups & Ha & Hc & Hid & Hf & G & Hg).
      right. exists a, coding. split; [exact Ha |]. split; [exact Hc |].
      apply in_rows_of_coding. split; [exact Hid |]. split; [exact Hf |].
      exists groups. auto.
Qed.

Lemma extract_frame_counts_rows_witness :
  In (mkCountRow "a1" "obstacles" "people_of_color" (3 # 2))
     [mkCountRow "a1" "obstacles" "people_of_color" (3 # 2);
      mkCountRow "a1" "obstacles" "women" 1] <->
  exists a coding groups,
    In a [coded_article "a1" "Women face barriers"
            [("tone", [("women", 2)]);
             ("obstacles", [("people_of_color", 3 # 2); ("women", 1)])]]
    /\ human_coding a = Some coding
    /\ "a1" = article_id a
    /\ In "obstacles" frame_types
    /\ dict_get coding "obstacles" = Some groups
    /\ In ("people_of_color", 3 # 2) groups.
Proof.
  apply (extract_frame_counts_rows
           [coded_article "a1" "Women face barriers"
              [("tone", [("women", 2)]);
               ("obstacles", [("people_of_color", 3 # 2); ("women", 1)])]]
           [mkCountRow "a1" "obstacles" "people_of_color" (3 # 2);
            mkCountRow "a1" "obstacles" "women" 1]
           eq_refl
           (mkCountRow "a1" "obstacles" "people_of_color" (3 # 2))).
Defined.

(** X14: [extract_frame_counts] succeeds exactly when every article
    carries a human coding (an empty list included); it raises a
    KeyError when there are articles and none carries one, and a
    TypeError when some do and some do not. *)
Theorem extract_frame_counts_outcome (articles : list article) :
  ((exists rows, extract_frame_counts articles = Done rows) <->
   forall a, In a articles -> human_coding a <> None)
  /\ (extract_frame_counts articles = Fails (KeyError "human_coding") <->
      articles <> [] /\ forall a, In a articles -> human_coding a = None)
  /\ (extract_frame_counts articles = Fails TypeError <->
      (exists a, In a articles /\ human_coding a = None)
      /\ (exists a, In a articles /\ human_coding a <> None)).
Proof.
  unfold extract_frame_counts.
  destruct articles as [| a0 rest].
  - split; [| split].
    + split; [intros _ a [] | intros _; eexists; reflexivity].
    + split; [discriminate | intros [H _]; congruence].
    + split; [discriminate | intros [(a & [] & _) _]].
  - destruct (forallb lacks_coding (a0 :: rest)) eqn:F.
    + pose proof (proj1 (forallb_lacks_coding _) F) as Hall.
      split; [| split].
      * split; [intros (rows & H); discriminate |].
        intros H. exfalso. apply (H a0); [left; reflexivity |].
        apply Hall. left; reflexivity.
      * split; [intros _; split; [discriminate | exact Hall] | reflexivity].
      * split; [discriminate |].
        intros [_ (a & Ha & Hc)]. exfalso. apply Hc, Hall, Ha.
    + assert (Hsome : exists a, In a (a0 :: rest) /\ human_coding a <> None).
      { destruct (existsb (fun a => negb (lacks_coding a)) (a0 :: rest)) eqn:X.
        - apply existsb_exists in X. destruct X as (a & Ha & Hn).
          exists a. split; [exact Ha |]. unfold lacks_coding in Hn.
          destruct (human_coding a); [discriminate | discriminate].
        - exfalso. assert (Y : forallb lacks_coding (a0 :: rest) = true).
          { apply forallb_forall. intros a Ha.
            destruct (lacks_coding a) eqn:L; [reflexivity |].
            assert (Z : existsb (fun a => negb (lacks_coding a)) (a0 :: rest) = true)
              by (apply existsb_exists; exists a; rewrite L; auto).
            congruence. }
          congruence. }
      destruct (extract_rows (a0 :: rest) []) as [rows | e] eqn:E.
      * destruct (extract_rows_spec _ _ _ E) as [Hall _].
        split; [| split].
        -- split; [intros _; exact Hall | intros _; eexists; reflexivity].
        -- split; [discriminate |].
           intros [_ H]. exfalso. apply (Hall a0); [left; reflexivity |].
           apply H. left; reflexivity.
        -- split; [discriminate |].
           intros [(a & Ha & Hc) _]. exfalso. exact (Hall a Ha Hc).
      * destruct (extract_rows_fails _ _ _ E) as (-> & a & Ha & Hc).
        split; [| split].
        -- split; [intros (rows & H); discriminate |].
           intros H. exfalso. exact (H a Ha Hc).
        -- split; [discriminate |].
           intros [_ H]. destruct Hsome as (b & Hb & Hn).
           exfalso. exact (Hn (H b Hb)).
        -- split; [intros _; split; [exists a; auto | exact Hsome] | reflexivity].
Qed.

(** * The keyword counts *)

Module CountFacts.
Import Re.







End CountFacts.




(** The count on a text where a keyword is part of a longer word. *)
Example keyword_count_inside_word :
  keyword_count "overrepresentation" "Almost nobody noticed" = Some 1%nat.
Proof. vm_compute. reflexivity. Qed.

(** * The claim about length validation *)





(** * The claim about repeated runs *)

(** With answers that do not depend on the oracle's state, the loop
    with the state gives what the loop over the answers gives. *)
Lemma analyze_article_st_pure {S : Type} (oracle : oracle_t S) (s0 s : S) (a : article) :
  input_determined oracle ->
  fst (analyze_article_st oracle s a)
  = analyze_article (fun text labels => fst (oracle s0 text labels)) a.
Proof.
  intros Hdet. unfold analyze_article_st, analyze_article. cbn [fst].
  rewrite (Hdet s s0). reflexivity.
Qed.

Lemma analyze_loop_st_pure {S : Type} (oracle : oracle_t S) (s0 : S)
  (articles : list article) :
  input_determined oracle ->
  forall results s,
    fst (analyze_loop_st oracle articles results s)
    = analyze_loop (fun text labels => fst (oracle s0 text labels)) articles results.
Proof.
  intros Hdet. induction articles as [| a rest IH]; intros results s;
    cbn [analyze_loop_st analyze_loop]; [reflexivity |].
  rewrite <- (analyze_article_st_pure oracle s0 s a Hdet).
  destruct (analyze_article_st oracle s a) as [[r | e] s']; cbn [fst];
    [apply IH | reflexivity].
Qed.

(** What a record holds, from the call that produced it. *)
Lemma analyze_article_st_fields {S : Type} (oracle : oracle_t S) (s : S)
  (a : article) (r : analysis) :
  fst (analyze_article_st oracle s a) = Ok r ->
  an_demographics r = detect_demographics (content a)
  /\ exists fr, fst (oracle s (content a) frame_labels) = Ok fr
                /\ detected_frames fr = Ok (an_detected_frames r).
Proof.
  unfold analyze_article_st. cbn [fst].
  destruct (fst (oracle s (content a) frame_labels)) as [fr | e]; [| discriminate].
  cbn [bind]. destruct (detected_frames fr) as [d | e] eqn:D; [| discriminate].
  cbn [bind]. intros [= <-]. split; [reflexivity |].
  exists fr. auto.
Qed.

Lemma analyze_loop_st_extends {S : Type} (oracle : oracle_t S)
  (articles : list article) :
  forall results s,
    exists done, fst (fst (analyze_loop_st oracle articles results s)) = results ++ done.
Proof.
  induction articles as [| a rest IH]; intros results s;
    cbn [analyze_loop_st].
  - exists []. cbn [fst]. now rewrite app_nil_r.
  - destruct (analyze_article_st oracle s a) as [[r | e] s'].
    + destruct (IH (results ++ [r]) s') as (done & H).
      exists (r :: done). rewrite H, <- app_assoc. reflexivity.
    + exists []. cbn [fst]. now rewrite app_nil_r.
Qed.

(** The record at a position comes from the article at that position. *)
Lemma analyze_loop_st_nth {S : Type} (oracle : oracle_t S) (articles : list article) :
  forall results s i r,
    nth_error (fst (fst (analyze_loop_st oracle articles results s)))
              (List.length results + i) = Some r ->
    exists a s', nth_error articles i = Some a
                 /\ fst (analyze_article_st oracle s' a) = Ok r.
Proof.
  induction articles as [| a rest IH]; intros results s i r H;
    cbn [analyze_loop_st] in H.
  - exfalso. cbn [fst] in H. assert (X : nth_error results (List.length results + i) = None)
      by (apply nth_error_None; lia).
    congruence.
  - destruct (analyze_article_st oracle s a) as [[r0 | e] s'] eqn:E.
    + destruct i as [| i].
      * destruct (analyze_loop_st_extends oracle rest (results ++ [r0]) s')
          as (done & Hd).
        rewrite Hd, <- app_assoc, Nat.add_0_r in H.
        rewrite nth_error_app2 in H by lia.
        rewrite Nat.sub_diag in H. simpl in H. injection H as <-.
        exists a, s. rewrite E. auto.
      * replace (List.length results + Datatypes.S i)%nat
          with (List.length (results ++ [r0]) + i)%nat in H
          by (rewrite length_app; simpl; lia).
        destruct (IH _ _ _ _ H) as (b & s'' & Hb & Hr).
        exists b, s''. auto.
    + exfalso. cbn [fst] in H.
      assert (X : nth_error results (List.length results + i) = None)
        by (apply nth_error_None; lia).
      congruence.
Qed.

(** C9: with an oracle whose answers depend on the input only, two
    runs of the analysis cell on the same articles give the same
    [results] and the same outcome, whatever [results] held and
    whatever state the oracle was in before each run, the state left by
    an earlier run included.  And two records made from the same
    content, in the same run or in two runs over different article
    lists, carry the same demographics and the same detected frames. *)
Theorem C9_rerun_identical {S : Type} (oracle : oracle_t S)
  (articles other_articles : list article) (nb1 nb2 nb3 : notebook S) :
  input_determined oracle ->
  let run1 := analysis_cell_st oracle articles nb1 in
  let run2 := analysis_cell_st oracle articles nb2 in
  let run3 := analysis_cell_st oracle other_articles nb3 in
  (fst run1 = fst run2 /\ nb_results (snd run1) = nb_results (snd run2))
  /\ forall i j a1 a2 r1 r2,
       nth_error articles i = Some a1 ->
       nth_error (nb_results (snd run1)) i = Some r1 ->
       nth_error other_articles j = Some a2 ->
       nth_error (nb_results (snd run3)) j = Some r2 ->
       content a1 = content a2 ->
       an_demographics r1 = an_demographics r2
       /\ an_detected_frames r1 = an_detected_frames r2.
Proof.
  intros Hdet run1 run2 run3. subst run1 run2 run3.
  unfold analysis_cell_st. cbn [fst snd nb_results]. split.
  - rewrite (analyze_loop_st_pure oracle (nb_oracle nb1) articles Hdet [] (nb_oracle nb1)).
    rewrite (analyze_loop_st_pure oracle (nb_oracle nb1) articles Hdet [] (nb_oracle nb2)).
    auto.
  - intros i j a1 a2 r1 r2 Ha1 Hr1 Ha2 Hr2 Hc.
    apply (analyze_loop_st_nth oracle articles [] _ i r1) in Hr1.
    apply (analyze_loop_st_nth oracle other_articles [] _ j r2) in Hr2.
    destruct Hr1 as (b1 & s1 & Hb1 & H1). destruct Hr2 as (b2 & s2 & Hb2 & H2).
    rewrite Ha1 in Hb1. injection Hb1 as <-.
    rewrite Ha2 in Hb2. injection Hb2 as <-.
    apply analyze_article_st_fields in H1, H2.
    destruct H1 as (D1 & fr1 & O1 & F1). destruct H2 as (D2 & fr2 & O2 & F2).
    split; [rewrite D1, D2, Hc; reflexivity |].
    rewrite Hc, (Hdet s1 s2), O2 in O1. injection O1 as <-.
    rewrite F1 in F2. injection F2 as ->. reflexivity.
Qed.

Lemma C9_rerun_identical_witness :
  fst (analysis_cell_st counting_oracle
         [sample_article "a1" "Black women lead"; sample_article "a2" "White men lead"]
         (mkNotebook [] 0%nat))
  = fst (analysis_cell_st counting_oracle
           [sample_article "a1" "Black women lead"; sample_article "a2" "White men lead"]
           (mkNotebook [mkAnalysis "old" "old" [] ["men"]] 7%nat))
  /\ nb_results
       (snd (analysis_cell_st counting_oracle
               [sample_article "a1" "Black women lead"; sample_article "a2" "White men lead"]
               (mkNotebook [] 0%nat)))
     = nb_results
         (snd (analysis_cell_st counting_oracle
                 [sample_article "a1" "Black women lead"; sample_article "a2" "White men lead"]
                 (mkNotebook [mkAnalysis "old" "old" [] ["men"]] 7%nat))).
Proof.
  destruct (C9_rerun_identical counting_oracle
              [sample_article "a1" "Black women lead"; sample_article "a2" "White men lead"]
              [sample_article "a3" "Black women lead"]
              (mkNotebook [] 0%nat)
              (mkNotebook [mkAnalysis "old" "old" [] ["men"]] 7%nat)
              (mkNotebook [] 3%nat))
    as [H _].
  - intros s s' text labels. reflexivity.
  - exact H.
Defined.
